(** * The fade-strategy decision pipeline

    A shallow embedding of the decision core of the AMM flow-toxicity
    strategy: [utils.safe_to_numeric], the decoder's [convert_hex_to_int],
    [price_impact], [flow_detector], [position_sizing], [signal_generator],
    [position_manager] and the per-event wiring of [strategy].

    Conventions of the embedding.
    - Python [int] is [Z].  Python [float] is the rational it denotes ([Q],
      kept in lowest terms): binary64 rounding, overflow, infinities and NaN
      are not represented, so a float literal such as [0.95] is the rational
      19/20 and every result is the exact one.
    - A Python [dict] read with [.get] is an association list keyed by
      strings; values are the JSON-like [pyval].
    - An exception is a [Raise] in the [result] monad.
    - The two module-level dictionaries ([pool_event_history] and
      [active_positions]) are threaded explicitly; they are [gmap]s keyed by
      pool id.
    - [time.time()] is an explicit argument [now]. *)

From Stdlib Require Import ZArith QArith Qabs Qround Lqa Ascii String Floats.
From stdpp Require Import gmap strings list.

Local Open Scope Z_scope.
Set Warnings "-register-all,-inexact-float".

(** ** Exceptions *)

Inductive exn : Type :=
| AttributeError      (* [.get] on a value that is not a dict *)
| TypeError           (* an operand of the wrong type *)
| ZeroDivisionError
| OverflowError       (* a result, or an [int] operand, too large for a float *)
| Unsupported.        (* a Python value outside the modelled fragment *)

Inductive result (A : Type) : Type :=
| Ok (a : A)
| Raise (e : exn).
Arguments Ok {A} a.
Arguments Raise {A} e.

#[global] Instance result_ret : MRet result := fun A a => Ok a.
#[global] Instance result_bind : MBind result := fun A B f m =>
  match m with
  | Ok a => f a
  | Raise e => Raise e
  end.


(** ** Python numbers *)

Inductive num : Type :=
| NInt (z : Z)
| NFloat (q : Q).

Definition num_val (n : num) : Q :=
  match n with
  | NInt z => inject_Z z
  | NFloat q => q
  end.

(** A float built from a rational, in lowest terms. *)
Definition fl (q : Q) : num := NFloat (Qred q).

Definition Qlt_bool (a b : Q) : bool := negb (Qle_bool b a).

Definition py_eq (a b : num) : bool := Qeq_bool (num_val a) (num_val b).
Definition py_le (a b : num) : bool := Qle_bool (num_val a) (num_val b).
Definition py_lt (a b : num) : bool := Qlt_bool (num_val a) (num_val b).
Definition py_ge (a b : num) : bool := py_le b a.
Definition py_gt (a b : num) : bool := py_lt b a.

Definition py_add (a b : num) : num :=
  match a, b with
  | NInt x, NInt y => NInt (x + y)
  | _, _ => fl (num_val a + num_val b)
  end.

Definition py_sub (a b : num) : num :=
  match a, b with
  | NInt x, NInt y => NInt (x - y)
  | _, _ => fl (num_val a - num_val b)
  end.

Definition py_mul (a b : num) : num :=
  match a, b with
  | NInt x, NInt y => NInt (x * y)
  | _, _ => fl (num_val a * num_val b)
  end.

(** [a / b]: true division, always a float. *)
Definition py_truediv (a b : num) : result num :=
  if py_eq b (NInt 0) then Raise ZeroDivisionError
  else Ok (fl (num_val a / num_val b)).

(** [a // b]: floor division; an int for two ints, a float otherwise. *)
Definition py_floordiv (a b : num) : result num :=
  if py_eq b (NInt 0) then Raise ZeroDivisionError
  else match a, b with
       | NInt x, NInt y => Ok (NInt (x / y))
       | _, _ => Ok (fl (inject_Z (Qfloor (num_val a / num_val b))))
       end.

Definition py_abs (a : num) : num :=
  match a with
  | NInt x => NInt (Z.abs x)
  | NFloat q => fl (Qabs q)
  end.

(** [max(a, b)]: the first argument unless the second is strictly greater. *)
Definition py_max (a b : num) : num := if py_gt b a then b else a.

(** [10 ** d] for an int [d]: an int when [d >= 0], a float otherwise. *)
Definition py_pow10 (d : Z) : num :=
  if 0 <=? d then NInt (10 ^ d) else fl (1 / inject_Z (10 ^ (- d))).

(** ** [strategy_config] *)

Module config.
Definition MIN_IMPACT_BASIS_POINTS : num := NInt 50.
Definition MAX_IMPACT_BASIS_POINTS : num := NInt 500.
Definition MIN_LIQUIDITY_RATIO : num := fl (1 # 10).
Definition WAIT_TIME_SECONDS : num := NInt 2.
Definition MAX_POSITION_SIZE_RATIO : num := fl (5 # 100).
Definition MIN_POSITION_SIZE : num := fl (1 # 100).
Definition STOP_LOSS_BASIS_POINTS : num := NInt 100.
Definition TAKE_PROFIT_BASIS_POINTS : num := NInt 50.
Definition FLOW_DETECTION_WINDOW_SECONDS : num := NInt 30.
Definition MAX_SAME_DIRECTION_EVENTS : nat := 1.
End config.

(** ** Python values and dictionaries *)

Inductive pyval : Type :=
| VNone
| VInt (z : Z)                        (* also [bool], a subclass of [int] *)
| VFloat (q : Q)
| VStr (s : string)
| VList (l : list pyval)
| VDict (d : list (string * pyval)).

Definition pydict : Type := list (string * pyval).

Fixpoint dict_lookup (d : pydict) (k : string) : option pyval :=
  match d with
  | [] => None
  | (k', v) :: d' => if String.eqb k' k then Some v else dict_lookup d' k
  end.

(** [v.get(k, dflt)] *)
Definition py_get (v : pyval) (k : string) (dflt : pyval) : result pyval :=
  match v with
  | VDict d => Ok (default dflt (dict_lookup d k))
  | _ => Raise AttributeError
  end.

(** Truth value of [v], as tested by [if v] and [not v]. *)
Definition truthy (v : pyval) : bool :=
  match v with
  | VNone => false
  | VInt z => negb (z =? 0)
  | VFloat q => negb (Qeq_bool q 0)
  | VStr s => negb (String.eqb s "")
  | VList l => match l with [] => false | _ => true end
  | VDict d => match d with [] => false | _ => true end
  end.

(** [reversed(v)], as the sequence of items it yields. *)
Definition py_reversed (v : pyval) : result (list pyval) :=
  match v with
  | VList l => Ok (rev l)
  | VStr s => Ok (map (fun c => VStr (String c EmptyString)) (rev (list_ascii_of_string s)))
  | VDict d => Ok (map (fun kv => VStr (fst kv)) (rev d))
  | _ => Raise TypeError
  end.

(** ** The built-in parsers [int(s, base)] and [float(s)] on ASCII text *)

Module pystr.

Definition is_space (c : ascii) : bool :=
  let n := nat_of_ascii c in
  ((n =? 32) || ((9 <=? n) && (n <=? 13)))%nat.

Fixpoint lstrip (l : list ascii) : list ascii :=
  match l with
  | c :: l' => if is_space c then lstrip l' else l
  | [] => []
  end.

Definition strip (l : list ascii) : list ascii := rev (lstrip (rev (lstrip l))).

Definition digit_value (c : ascii) : option Z :=
  let n := Z.of_nat (nat_of_ascii c) in
  if (48 <=? n) && (n <=? 57) then Some (n - 48)
  else if (97 <=? n) && (n <=? 122) then Some (n - 87)
  else if (65 <=? n) && (n <=? 90) then Some (n - 55)
  else None.

Definition is_digit (c : ascii) : bool :=
  let n := Z.of_nat (nat_of_ascii c) in (48 <=? n) && (n <=? 57).

(** Digits of [base], single underscores allowed between two digits. *)
Fixpoint digits_loop (base acc : Z) (prev_us : bool) (l : list ascii) : option Z :=
  match l with
  | [] => if prev_us then None else Some acc
  | c :: l' =>
      if Ascii.eqb c "_" then
        if prev_us then None else digits_loop base acc true l'
      else
        match digit_value c with
        | Some d => if d <? base then digits_loop base (acc * base + d) false l' else None
        | None => None
        end
  end.

Definition parse_digits (base : Z) (l : list ascii) : option Z :=
  match l with
  | [] => None
  | c :: _ => if Ascii.eqb c "_" then None else digits_loop base 0 false l
  end.

Definition split_sign (l : list ascii) : bool * list ascii :=
  match l with
  | "+"%char :: r => (false, r)
  | "-"%char :: r => (true, r)
  | _ => (false, l)
  end.

(** The [0x] prefix [int(s, 16)] accepts, with one underscore after it. *)
Definition skip_hex_prefix (l : list ascii) : list ascii :=
  match l with
  | "0"%char :: x :: r =>
      if Ascii.eqb x "x" || Ascii.eqb x "X" then
        match r with
        | "_"%char :: r' => r'
        | _ => r
        end
      else l
  | _ => l
  end.

(** [int(s, base)] for [base] 10 or 16; [None] stands for [ValueError]. *)
Definition py_int (base : Z) (s : string) : option Z :=
  let l := strip (list_ascii_of_string s) in
  let '(neg, l1) := split_sign l in
  let l2 := if base =? 16 then skip_hex_prefix l1 else l1 in
  z ← parse_digits base l2;
  Some (if neg : bool then - z else z).

(** Underscores of a float literal: only between two digits. *)
Fixpoint underscores_ok (prev : option ascii) (l : list ascii) : bool :=
  match l with
  | [] => match prev with Some c => negb (Ascii.eqb c "_") | None => true end
  | c :: l' =>
      (if Ascii.eqb c "_" then
         match prev with Some p => is_digit p | None => false end
       else
         match prev with
         | Some p => negb (Ascii.eqb p "_") || is_digit c
         | None => true
         end)
      && underscores_ok (Some c) l'
  end.

Definition drop_underscores (l : list ascii) : list ascii :=
  List.filter (fun c => negb (Ascii.eqb c "_")) l.

(** The leading decimal digits of [l]: their value, their number, the rest. *)
Fixpoint span_digits (acc : Z) (n : nat) (l : list ascii) : Z * nat * list ascii :=
  match l with
  | c :: l' =>
      if is_digit c then span_digits (acc * 10 + (Z.of_nat (nat_of_ascii c) - 48)) (S n) l'
      else (acc, n, l)
  | [] => (acc, n, [])
  end.

(** The exponent part: empty, or [e] or [E], a sign and at least one digit. *)
Definition parse_exponent (l : list ascii) : option Z :=
  match l with
  | [] => Some 0
  | e :: r =>
      if Ascii.eqb e "e" || Ascii.eqb e "E" then
        let '(neg, r1) := split_sign r in
        let '(v, n, rest) := span_digits 0 0 r1 in
        match n, rest with
        | S _, [] => Some (if neg : bool then - v else v)
        | _, _ => None
        end
      else None
  end.

Definition scale10 (m e : Z) : Q :=
  if 0 <=? e then inject_Z (m * 10 ^ e) else inject_Z m / inject_Z (10 ^ (- e)).

(** [float(s)] on a decimal literal, as the rational it denotes; [None]
    stands for [ValueError].  The literals [inf], [infinity] and [nan]
    denote no rational; they hold no ['.'], and every call below is
    guarded by ['.' in value]. *)
Definition py_float (s : string) : option Q :=
  let l := strip (list_ascii_of_string s) in
  if negb (underscores_ok None l) then None else
  let '(neg, l1) := split_sign (drop_underscores l) in
  let '(ip, ni, r1) := span_digits 0 0 l1 in
  let '(fp, nf, r2) :=
    match r1 with
    | "."%char :: r => span_digits 0 0 r
    | _ => (0, 0%nat, r1)
    end in
  match (ni + nf)%nat with
  | O => None
  | S _ =>
      e ← parse_exponent r2;
      let m := ip * 10 ^ Z.of_nat nf + fp in
      Some (Qred (scale10 (if neg : bool then - m else m) (e - Z.of_nat nf)))
  end.

Definition is_hex_char (c : ascii) : bool :=
  match digit_value c with
  | Some d => d <? 16
  | None => false
  end.

(** [all(c in '0123456789abcdefABCDEF' for c in s)] *)
Definition all_hex (s : string) : bool := forallb is_hex_char (list_ascii_of_string s).

(** ['.' in s] *)
Definition has_dot (s : string) : bool :=
  existsb (fun c => Ascii.eqb c ".") (list_ascii_of_string s).

End pystr.

(** ** [utils.safe_to_numeric] *)

(** The decimal attempt shared by the core and the decoder:
    [float(value) if '.' in value else int(value)]. *)
Definition parse_decimal (value : string) : option num :=
  if pystr.has_dot value then NFloat <$> pystr.py_float value
  else NInt <$> pystr.py_int 10 value.

Definition safe_to_numeric (value : pyval) : num :=
  match value with
  | VInt z => NInt z
  | VFloat q => NFloat q
  | VStr s =>
      let hex :=
        if String.prefix "0x" s || ((0 <? String.length s)%nat && pystr.all_hex s)
        then pystr.py_int 16 s else None in
      match hex with
      | Some z => NInt z
      | None => default (NInt 0) (parse_decimal s)
      end
  | _ => NInt 0
  end.

(** ** [price_impact] *)

Inductive direction : Type := AtoB | BtoA.

#[global] Instance direction_eq_dec : EqDecision direction.
Proof. solve_decision. Defined.

Definition direction_str (d : direction) : string :=
  match d with
  | AtoB => "AtoB"
  | BtoA => "BtoA"
  end.

(** The result triple [(impact_basis_points, direction, swap_size)]. *)
Definition impact_data : Type := num * direction * num.

(** [config.MIN_IMPACT_BASIS_POINTS <= slippage_bp <= config.MAX_IMPACT_BASIS_POINTS] *)
Definition in_band (slippage_bp : num) : bool :=
  py_le config.MIN_IMPACT_BASIS_POINTS slippage_bp
  && py_le slippage_bp config.MAX_IMPACT_BASIS_POINTS.

(** [amount_a if direction == 'AtoB' else amount_b] *)
Definition sold_reserve (d : direction) (amount_a amount_b : num) : num :=
  match d with
  | AtoB => amount_a
  | BtoA => amount_b
  end.

(** The body of [for tier in reversed(price_tiers)] in [_check_direction],
    on the tiers still to visit. *)
Fixpoint scan_tiers (pool_price_table : pyval) (d : direction)
    (amount_a amount_b : num) (tiers : list pyval) : result (option impact_data) :=
  match tiers with
  | [] => mret None
  | tier :: rest =>
      s ← py_get tier "SlippageBasisPoints" (VInt 0);
      let slippage_bp := safe_to_numeric s in
      m ← py_get tier "MaxAmountIn" (VInt 0);
      let max_amount_in := safe_to_numeric m in
      p ← py_get tier "Price" (VFloat 1);
      let price := safe_to_numeric p in
      if negb (in_band slippage_bp) then
        scan_tiers pool_price_table d amount_a amount_b rest
      else
        mp ← py_get pool_price_table (direction_str d +:+ "Price") (VFloat 1);
        let mid_price := safe_to_numeric mp in
        if py_eq mid_price (NInt 0) then
          scan_tiers pool_price_table d amount_a amount_b rest
        else
          ratio ← py_truediv price mid_price;
          let impact := py_mul (py_abs (py_sub (fl 1) ratio)) (NInt 10000) in
          let base_liquidity := sold_reserve d amount_a amount_b in
          liquidity_ratio ←
            (if py_gt base_liquidity (NInt 0)
             then py_truediv max_amount_in base_liquidity
             else mret (NInt 0));
          if py_ge liquidity_ratio config.MIN_LIQUIDITY_RATIO then
            mret (Some (impact, d, max_amount_in))
          else
            scan_tiers pool_price_table d amount_a amount_b rest
  end.

Definition _check_direction (pool_price_table : pyval) (d : direction)
    (amount_a amount_b : num) : result (option impact_data) :=
  price_tiers ← py_get pool_price_table (direction_str d +:+ "Prices") (VList []);
  if negb (truthy price_tiers) then mret None
  else
    tiers ← py_reversed price_tiers;
    scan_tiers pool_price_table d amount_a amount_b tiers.

Definition calculate_price_impact (pool_event : pyval) : result (option impact_data) :=
  pool_price_table ← py_get pool_event "PoolPriceTable" VNone;
  if negb (truthy pool_price_table) then mret None
  else
    liquidity ← py_get pool_event "Liquidity" (VDict []);
    a ← py_get liquidity "AmountCurrencyA" (VInt 0);
    let amount_a := safe_to_numeric a in
    b ← py_get liquidity "AmountCurrencyB" (VInt 0);
    let amount_b := safe_to_numeric b in
    if py_eq amount_a (NInt 0) || py_eq amount_b (NInt 0) then mret None
    else
      impact ← _check_direction pool_price_table AtoB amount_a amount_b;
      match impact with
      | Some i => mret (Some i)
      | None =>
          impact ← _check_direction pool_price_table BtoA amount_a amount_b;
          match impact with
          | Some i => mret (Some i)
          | None => mret None
          end
      end.

(** ** [utils]: currency metadata and display helpers *)

Inductive currency : Type := CurA | CurB.

(** A value used as an operand of arithmetic. *)
Definition as_num (v : pyval) : result num :=
  match v with
  | VInt z => Ok (NInt z)
  | VFloat q => Ok (NFloat q)
  | _ => Raise TypeError
  end.

(** [10 ** decimals].  A float exponent is outside the modelled fragment. *)
Definition py_pow10_val (decimals : pyval) : result num :=
  match decimals with
  | VInt d => Ok (py_pow10 d)
  | VFloat _ => Raise Unsupported
  | _ => Raise TypeError
  end.

Definition get_currency_decimals (pool_event : pyval) (c : currency) : result pyval :=
  pool ← py_get pool_event "Pool" (VDict []);
  currency_obj ←
    match c with
    | CurA => py_get pool "CurrencyA" (VDict [])
    | CurB => py_get pool "CurrencyB" (VDict [])
    end;
  py_get currency_obj "Decimals" (VInt 18).

Definition apply_decimals (amount : num) (decimals : pyval) : result num :=
  if py_eq amount (NInt 0) then mret (fl 0)
  else
    p ← py_pow10_val decimals;
    py_truediv amount p.

(** [format_amount], up to the text of the formatted number. *)
Definition format_amount (amount : num) (decimals : pyval) : result num :=
  apply_decimals amount decimals.

(** ** [position_sizing] *)

Definition calculate_position_size (pool_event : pyval) (impact_bp : num)
    (fade_direction : direction) : result num :=
  liquidity ← py_get pool_event "Liquidity" (VDict []);
  a ← py_get liquidity "AmountCurrencyA" (VInt 0);
  let amount_a := safe_to_numeric a in
  b ← py_get liquidity "AmountCurrencyB" (VInt 0);
  let amount_b := safe_to_numeric b in
  '(base_liquidity, decimals) ←
    match fade_direction with
    | BtoA => d ← get_currency_decimals pool_event CurA; mret (amount_a, d)
    | AtoB => d ← get_currency_decimals pool_event CurB; mret (amount_b, d)
    end;
  if py_eq base_liquidity (NInt 0) then mret (fl 0)
  else
    x ← py_truediv impact_bp (fl 1000);
    y ← py_truediv (fl 1) (py_add (fl 1) x);
    let impact_factor := py_max (fl (1 # 10)) y in
    let position_size_raw :=
      py_mul (py_mul base_liquidity config.MAX_POSITION_SIZE_RATIO) impact_factor in
    p ← py_pow10_val decimals;
    let min_position_size_raw := py_mul config.MIN_POSITION_SIZE p in
    let final_size := py_max position_size_raw min_position_size_raw in
    mret final_size.

(** ** [flow_detector] *)

Record flow_record : Type := { fr_direction : direction; fr_time : num }.

(** [deque(l, maxlen=n)]: the last [n] items of [l]. *)
Definition deque (n : nat) {A : Type} (l : list A) : list A :=
  drop (length l - n) l.

(** [dq.append(x)] on a deque of capacity [n]. *)
Definition deque_append (n : nat) {A : Type} (dq : list A) (x : A) : list A :=
  deque n (dq ++ [x]).

Definition in_window (current_time : num) (event : flow_record) : bool :=
  py_lt (py_sub current_time (fr_time event)) config.FLOW_DETECTION_WINDOW_SECONDS.

Definition same_direction (d : direction) (event : flow_record) : bool :=
  bool_decide (fr_direction event = d).

Definition is_isolated_shock (pool_id : string) (d : direction) (current_time : num)
    (pool_event_history : gmap string (list flow_record))
  : bool * gmap string (list flow_record) :=
  let h1 :=
    match pool_event_history !! pool_id with
    | None => <[pool_id := deque 10 []]> pool_event_history
    | Some _ => pool_event_history
    end in
  let history := h1 !!! pool_id in
  let recent_events := List.filter (in_window current_time) history in
  let same_direction_count := length (List.filter (same_direction d) recent_events) in
  let h2 := <[pool_id := deque 10 recent_events]> h1 in
  let h3 :=
    <[pool_id := deque_append 10 (h2 !!! pool_id)
                   {| fr_direction := d; fr_time := current_time |}]> h2 in
  (bool_decide (same_direction_count ≤ config.MAX_SAME_DIRECTION_EVENTS)%nat, h3).

(** ** [signal_generator] *)

Inductive position_status : Type := pending | entered | closed.

#[global] Instance position_status_eq_dec : EqDecision position_status.
Proof. solve_decision. Defined.

(** The signal dictionary built by [create_fade_signal]; the same object is
    the position stored in [active_positions]. *)
Record signal : Type := {
  pool_id : pyval;
  pool_address : pyval;
  currency_a : pyval;
  currency_b : pyval;
  swap_direction : direction;
  fade_direction : direction;
  impact_basis_points : num;
  swap_size : num;
  swap_size_decimals : pyval;
  position_size : num;
  position_size_decimals : pyval;
  entry_time : num;
  stop_loss_bp : num;
  take_profit_bp : num;
  status : position_status
}.

Definition set_status (st : position_status) (p : signal) : signal :=
  {| pool_id := pool_id p; pool_address := pool_address p;
     currency_a := currency_a p; currency_b := currency_b p;
     swap_direction := swap_direction p; fade_direction := fade_direction p;
     impact_basis_points := impact_basis_points p; swap_size := swap_size p;
     swap_size_decimals := swap_size_decimals p; position_size := position_size p;
     position_size_decimals := position_size_decimals p;
     entry_time := entry_time p; stop_loss_bp := stop_loss_bp p;
     take_profit_bp := take_profit_bp p; status := st |}.

(** The two module-level dictionaries. *)
Record state : Type := {
  pool_event_history : gmap string (list flow_record);
  active_positions : gmap string signal
}.

Definition initial_state : state :=
  {| pool_event_history := ∅; active_positions := ∅ |}.

(** A value used as the key of a dictionary that is being written.  Both
    dictionaries are keyed by [str]; lists and dicts are unhashable, and a
    non-empty key of another type is outside the modelled fragment. *)
Definition as_key (v : pyval) : result string :=
  match v with
  | VStr s => Ok s
  | VList _ | VDict _ => Raise TypeError
  | _ => Raise Unsupported
  end.

(** [key in d] for a dictionary that holds [str] keys only. *)
Definition key_in {A : Type} (v : pyval) (d : gmap string A) : result bool :=
  match v with
  | VStr s => Ok (bool_decide (is_Some (d !! s)))
  | VList _ | VDict _ => Raise TypeError
  | _ => Ok false
  end.

Definition should_fade (pool_event : pyval) (impact : impact_data) (st : state)
  : result (bool * state) :=
  let '(impact_bp, d, swap_size) := impact in
  pool ← py_get pool_event "Pool" (VDict []);
  pid ← py_get pool "PoolId" (VStr "");
  if negb (truthy pid) then mret (false, st)
  else
    tx_header ← py_get pool_event "TransactionHeader" (VDict []);
    t ← py_get tx_header "Time" (VInt 0);
    t ← as_num t;
    event_time ← py_floordiv t (NInt 1000000000);
    key ← as_key pid;
    let '(isolated, h) := is_isolated_shock key d event_time (pool_event_history st) in
    let st' := {| pool_event_history := h; active_positions := active_positions st |} in
    if negb isolated then mret (false, st')
    else
      held ← key_in pid (active_positions st');
      if held : bool then mret (false, st')
      else mret (true, st').

Definition opposite (d : direction) : direction :=
  match d with
  | AtoB => BtoA
  | BtoA => AtoB
  end.

Definition create_fade_signal (now : Q) (pool_event : pyval) (impact : impact_data)
  : result signal :=
  let '(impact_bp, d, swap_size) := impact in
  pool ← py_get pool_event "Pool" (VDict []);
  pid ← py_get pool "PoolId" (VStr "");
  cur_a ← py_get pool "CurrencyA" (VDict []);
  cur_b ← py_get pool "CurrencyB" (VDict []);
  let fade := opposite d in
  size ← calculate_position_size pool_event impact_bp fade;
  decimals_a ← get_currency_decimals pool_event CurA;
  decimals_b ← get_currency_decimals pool_event CurB;
  let swap_decimals := match d with AtoB => decimals_a | BtoA => decimals_b end in
  let position_decimals := match fade with BtoA => decimals_a | AtoB => decimals_b end in
  address ← py_get pool "SmartContract" (VStr "");
  symbol_a ← py_get cur_a "Symbol" (VStr "");
  symbol_b ← py_get cur_b "Symbol" (VStr "");
  mret {| pool_id := pid;
          pool_address := address;
          currency_a := symbol_a;
          currency_b := symbol_b;
          swap_direction := d;
          fade_direction := fade;
          impact_basis_points := impact_bp;
          swap_size := swap_size;
          swap_size_decimals := swap_decimals;
          position_size := size;
          position_size_decimals := position_decimals;
          entry_time := py_add (NFloat now) config.WAIT_TIME_SECONDS;
          stop_loss_bp := config.STOP_LOSS_BASIS_POINTS;
          take_profit_bp := config.TAKE_PROFIT_BASIS_POINTS;
          status := pending |}.

Definition get_active_positions (st : state) : gmap string signal := active_positions st.

Definition add_position (key : string) (s : signal) (st : state) : state :=
  {| pool_event_history := pool_event_history st;
     active_positions := <[key := s]> (active_positions st) |}.


(** ** [position_manager] *)

Definition monitor_positions (now : Q) (current_pool_state : pyval) (st : state)
  : result state :=
  pool ← py_get current_pool_state "Pool" (VDict []);
  pid ← py_get pool "PoolId" (VStr "");
  held ← key_in pid (get_active_positions st);
  if negb held then mret st
  else
    key ← as_key pid;
    match get_active_positions st !! key with
    | None => mret st
    | Some position =>
        if py_lt (NFloat now) (entry_time position) then mret st
        else
          let st1 :=
            if bool_decide (status position = pending)
            then add_position key (set_status entered position) st
            else st in
          (* the exit evaluation only reads the price table *)
          _ ← py_get current_pool_state "PoolPriceTable" (VDict []);
          mret st1
    end.

(** ** [strategy]: one event of the polling loop *)

Definition process_pool_event (now : Q) (pool_event : pyval) (st : state)
  : result (option signal * state) :=
  pool ← py_get pool_event "Pool" (VDict []);
  pid ← py_get pool "PoolId" (VStr "");
  if negb (truthy pid) then mret (None, st)
  else
    found ← calculate_price_impact pool_event;
    match found with
    | None => mret (None, st)
    | Some (impact_bp, d, size) =>
        (* the figures printed under [EVENT] *)
        swap_decimals ← get_currency_decimals pool_event
                          (match d with AtoB => CurA | BtoA => CurB end);
        cur ← py_get pool (match d with AtoB => "CurrencyA" | BtoA => "CurrencyB" end)
                (VDict []);
        _ ← py_get cur "Symbol" (VStr (match d with AtoB => "A" | BtoA => "B" end));
        _ ← format_amount size swap_decimals;
        '(fade, st1) ← should_fade pool_event (impact_bp, d, size) st;
        if fade : bool then
          s ← create_fade_signal now pool_event (impact_bp, d, size);
          (* the figures printed under [FADE SIGNAL] *)
          position_decimals ← get_currency_decimals pool_event
                                (match fade_direction s with AtoB => CurB | BtoA => CurA end);
          _ ← format_amount (position_size s) position_decimals;
          key ← as_key pid;
          mret (Some s, add_position key s st1)
        else mret (None, st1)
    end.

(** One iteration of the loop of [handle_message]: [now_m] and [now_s] are
    the clock readings in [monitor_positions] and [create_fade_signal]. *)
Definition handle_event (now_m now_s : Q) (pool_event : pyval) (st : state)
  : result (option signal * state) :=
  st1 ← monitor_positions now_m pool_event st;
  process_pool_event now_s pool_event st1.

(** The loop of [handle_message] over the events of a message, with the
    signals created along the way. *)
Fixpoint handle_events (events : list (Q * Q * pyval)) (st : state)
  : result (list signal * state) :=
  match events with
  | [] => mret ([], st)
  | (now_m, now_s, pool_event) :: rest =>
      '(made, st1) ← handle_event now_m now_s pool_event st;
      '(sigs, st2) ← handle_events rest st1;
      mret (match made with Some s => s :: sigs | None => sigs end, st2)
  end.

(** ** [bitquery.convert_hex_to_int] *)

Definition numeric_hex_fields : list string :=
  ["Number"; "BaseFee"; "ParentNumber"; "PreBalance"; "PostBalance";
   "MaxAmountIn"; "MaxAmountOut"; "MinAmountOut"; "MinAmountIn";
   "AmountCurrencyA"; "AmountCurrencyB"].

Definition numeric_fields : list string :=
  ["SlippageBasisPoints"; "Price"; "AtoBPrice"; "BtoAPrice"].

Definition key_in_set (key : string) (fields : list string) : bool :=
  existsb (String.eqb key) fields.

Definition of_num (n : num) : pyval :=
  match n with
  | NInt z => VInt z
  | NFloat q => VFloat q
  end.

(** Hexadecimal first, then decimal, else the string itself. *)
Definition convert_hex_first (value : string) : pyval :=
  match pystr.py_int 16 value with
  | Some z => VInt z
  | None =>
      match parse_decimal value with
      | Some n => of_num n
      | None => VStr value
      end
  end.

(** Decimal first, then hexadecimal, else the string itself. *)
Definition convert_decimal_first (value : string) : pyval :=
  match parse_decimal value with
  | Some n => of_num n
  | None =>
      match pystr.py_int 16 value with
      | Some z => VInt z
      | None => VStr value
      end
  end.

(** What [convert_hex_to_int] stores under [key] for a string [value]. *)
Definition convert_string (key value : string) : pyval :=
  if key_in_set key numeric_hex_fields && negb (String.eqb value "") then
    convert_hex_first value
  else if key_in_set key numeric_fields && negb (String.eqb value "") then
    convert_decimal_first value
  else VStr value.

Fixpoint convert_hex_to_int (data : pyval) : pyval :=
  match data with
  | VDict d =>
      VDict (map (fun kv =>
                    (fst kv,
                     match snd kv with
                     | VStr s => convert_string (fst kv) s
                     | VDict _ | VList _ => convert_hex_to_int (snd kv)
                     | v => v
                     end)) d)
  | VList l => VList (map convert_hex_to_int l)
  | _ => data
  end.


(** The value of a string of hexadecimal digits, most significant first. *)
Definition hex_value (s : string) : Z :=
  fold_left (fun acc c => acc * 16 + default 0 (pystr.digit_value c))
    (list_ascii_of_string s) 0.

(** ** Views of an event, used to state the properties

    [field v k dflt] is the value [v.get(k, dflt)] has when [v] is a dict.
    The shape predicates say which containers are dicts and lists, as the
    decoder builds them from the message schema. *)

Definition is_dict (v : pyval) : bool :=
  match v with
  | VDict _ => true
  | _ => false
  end.

Definition field (v : pyval) (k : string) (dflt : pyval) : pyval :=
  match v with
  | VDict d => default dflt (dict_lookup d k)
  | _ => dflt
  end.

Definition price_table_of (ev : pyval) : pyval := field ev "PoolPriceTable" VNone.
Definition liquidity_of (ev : pyval) : pyval := field ev "Liquidity" (VDict []).
Definition amount_a_of (ev : pyval) : num :=
  safe_to_numeric (field (liquidity_of ev) "AmountCurrencyA" (VInt 0)).
Definition amount_b_of (ev : pyval) : num :=
  safe_to_numeric (field (liquidity_of ev) "AmountCurrencyB" (VInt 0)).

Definition tiers_of (table : pyval) (d : direction) : list pyval :=
  match field table (direction_str d +:+ "Prices") (VList []) with
  | VList l => l
  | _ => []
  end.

Definition mid_price_of (table : pyval) (d : direction) : num :=
  safe_to_numeric (field table (direction_str d +:+ "Price") (VFloat 1)).

Definition slippage_of (tier : pyval) : num :=
  safe_to_numeric (field tier "SlippageBasisPoints" (VInt 0)).
Definition max_amount_in_of (tier : pyval) : num :=
  safe_to_numeric (field tier "MaxAmountIn" (VInt 0)).
Definition price_of (tier : pyval) : num :=
  safe_to_numeric (field tier "Price" (VFloat 1)).

(** A tier list: absent, falsy, or a list of dicts. *)
Definition tiers_shaped (v : pyval) : bool :=
  match v with
  | VList l => forallb is_dict l
  | _ => negb (truthy v)
  end.

(** A price table: falsy, or a dict with well-shaped tier lists. *)
Definition table_shaped (v : pyval) : bool :=
  match v with
  | VDict _ =>
      tiers_shaped (field v "AtoBPrices" (VList []))
      && tiers_shaped (field v "BtoAPrices" (VList []))
  | _ => negb (truthy v)
  end.

(** An event as [calculate_price_impact] expects it. *)
Definition event_shaped (ev : pyval) : bool :=
  is_dict ev && table_shaped (price_table_of ev) && is_dict (liquidity_of ev).

(** *** The scan of [price_impact], as a search *)

(** The ratio test of a tier, where the sold-side reserve is positive. *)
Definition liquidity_ratio_ok (reserve max_amount_in : num) : bool :=
  Qlt_bool 0 (num_val reserve)
  && Qle_bool (num_val config.MIN_LIQUIDITY_RATIO)
              (num_val max_amount_in / num_val reserve).

(** A tier the scan returns: slippage in the band, a mid price that is not
    zero, and a large enough ratio to a positive reserve. *)
Definition accepts (table : pyval) (d : direction) (amount_a amount_b : num)
    (tier : pyval) : bool :=
  in_band (slippage_of tier)
  && negb (py_eq (mid_price_of table d) (NInt 0))
  && liquidity_ratio_ok (sold_reserve d amount_a amount_b) (max_amount_in_of tier).

(** [|1 - price / mid_price| * 10000] *)
Definition impact_of (table : pyval) (d : direction) (tier : pyval) : num :=
  fl (Qabs (1 - num_val (price_of tier) / num_val (mid_price_of table d)) * 10000).

Definition first_accepted (table : pyval) (d : direction) (amount_a amount_b : num)
  : option impact_data :=
  (fun tier => (impact_of table d tier, d, max_amount_in_of tier))
    <$> List.find (accepts table d amount_a amount_b) (rev (tiers_of table d)).

Definition price_impact_spec (ev : pyval) : option impact_data :=
  let table := price_table_of ev in
  match first_accepted table AtoB (amount_a_of ev) (amount_b_of ev) with
  | Some r => Some r
  | None => first_accepted table BtoA (amount_a_of ev) (amount_b_of ev)
  end.

(** The two conditions on a tier that the specification names: slippage in
    the band and [MaxAmountIn / reserve >= MIN_LIQUIDITY_RATIO]. *)
Definition stated_qualifying (d : direction) (amount_a amount_b : num)
    (tier : pyval) : bool :=
  in_band (slippage_of tier)
  && Qle_bool (num_val config.MIN_LIQUIDITY_RATIO)
              (num_val (max_amount_in_of tier)
               / num_val (sold_reserve d amount_a amount_b)).

(** The search with the two stated conditions only. *)
Definition first_stated (table : pyval) (d : direction) (amount_a amount_b : num)
  : option impact_data :=
  (fun tier => (impact_of table d tier, d, max_amount_in_of tier))
    <$> List.find (stated_qualifying d amount_a amount_b) (rev (tiers_of table d)).

(** *** Position sizing *)

Definition pool_of (ev : pyval) : pyval := field ev "Pool" (VDict []).





(** [MIN_POSITION_SIZE * 10 ** decimals] *)
Definition min_position_size_raw (decimals : Z) : num :=
  py_mul config.MIN_POSITION_SIZE (py_pow10 decimals).

(** The size computed from a non-zero reserve. *)
Definition size_from (base : num) (decimals : pyval) (impact_bp : num) : result num :=
  x ← py_truediv impact_bp (fl 1000);
  y ← py_truediv (fl 1) (py_add (fl 1) x);
  p ← py_pow10_val decimals;
  mret (py_max (py_mul (py_mul base config.MAX_POSITION_SIZE_RATIO)
                  (py_max (fl (1 # 10)) y))
          (py_mul config.MIN_POSITION_SIZE p)).




(** *** Pool id and event time *)

Definition pool_id_of (ev : pyval) : pyval := field (pool_of ev) "PoolId" (VStr "").

Definition time_of (ev : pyval) : pyval :=
  field (field ev "TransactionHeader" (VDict [])) "Time" (VInt 0).

(** An event on which [should_fade] reaches the flow check of pool [key] at
    time [t] (in seconds). *)
Definition reaches_flow_check (ev : pyval) (key : string) (t : num) : Prop :=
  is_dict ev = true /\ is_dict (pool_of ev) = true
  /\ pool_id_of ev = VStr key /\ key <> ""
  /\ is_dict (field ev "TransactionHeader" (VDict [])) = true
  /\ exists n, as_num (time_of ev) = Ok n /\ py_floordiv n (NInt 1000000000) = Ok t.

(** The record [is_isolated_shock] appends. *)
Definition flow_entry (d : direction) (t : num) : flow_record :=
  {| fr_direction := d; fr_time := t |}.

(** The retained records of a pool. *)
Definition retained (h : gmap string (list flow_record)) (key : string)
  : list flow_record :=
  default [] (h !! key).

(** The number of retained records of a pool in the direction [d] and in
    the window of [t]. *)
Definition same_direction_count (pool_event_history : gmap string (list flow_record))
    (key : string) (d : direction) (t : num) : nat :=
  length (List.filter (fun e => in_window t e && same_direction d e)
            (retained pool_event_history key)).

(** *** Events used as examples *)

Definition scenario_tier : pyval :=
  VDict [("SlippageBasisPoints", VInt 80); ("MaxAmountIn", VInt 50);
         ("Price", VFloat (95 # 100))].

(** The scenario of the specification: one AtoB tier, mid price 1.00,
    reserve 400 of A (and a non-zero reserve of B). *)
Definition scenario_event : pyval :=
  VDict [
    ("PoolPriceTable", VDict [("AtoBPrices", VList [scenario_tier]); ("AtoBPrice", VFloat 1)]);
    ("Liquidity", VDict [("AmountCurrencyA", VInt 400); ("AmountCurrencyB", VInt 400)])
  ].






(** The scenario as an event of pool [P] at 7 s, with its currencies. *)
Definition pool_P_event : pyval :=
  VDict [
    ("Pool", VDict [
       ("PoolId", VStr "P"); ("SmartContract", VStr "0xabc");
       ("CurrencyA", VDict [("Symbol", VStr "WETH"); ("Decimals", VInt 18)]);
       ("CurrencyB", VDict [("Symbol", VStr "USDC"); ("Decimals", VInt 6)])]);
    ("TransactionHeader", VDict [("Time", VInt 7000000000)]);
    ("PoolPriceTable", VDict [("AtoBPrices", VList [scenario_tier]); ("AtoBPrice", VFloat 1)]);
    ("Liquidity", VDict [("AmountCurrencyA", VInt 400); ("AmountCurrencyB", VInt 400)])
  ].

(** A pending position of pool [P], due at 9 s. *)
Definition pending_P : signal :=
  {| pool_id := VStr "P"; pool_address := VStr "0xabc";
     currency_a := VStr "WETH"; currency_b := VStr "USDC";
     swap_direction := AtoB; fade_direction := BtoA;
     impact_basis_points := NFloat 500; swap_size := NInt 50;
     swap_size_decimals := VInt 18;
     position_size := NFloat 10000000000000000; position_size_decimals := VInt 18;
     entry_time := NFloat 9;
     stop_loss_bp := config.STOP_LOSS_BASIS_POINTS;
     take_profit_bp := config.TAKE_PROFIT_BASIS_POINTS;
     status := pending |}.

Definition holding_P : state := add_position "P" pending_P initial_state.

(** Pool [P] with no reserve of B left. *)
Definition drained_event : pyval :=
  VDict [
    ("Pool", VDict [
       ("PoolId", VStr "P"); ("SmartContract", VStr "0xabc");
       ("CurrencyA", VDict [("Symbol", VStr "WETH"); ("Decimals", VInt 18)]);
       ("CurrencyB", VDict [("Symbol", VStr "USDC"); ("Decimals", VInt 6)])]);
    ("TransactionHeader", VDict [("Time", VInt 7000000000)]);
    ("PoolPriceTable", VDict [("AtoBPrices", VList [scenario_tier]); ("AtoBPrice", VFloat 1)]);
    ("Liquidity", VDict [("AmountCurrencyA", VInt 400); ("AmountCurrencyB", VInt 0)])
  ].

(** ** [bitquery.convert_bytes] *)

(** A hexadecimal digit as [bytes.hex] writes it, in lower case. *)
Definition hex_digit (n : N) : ascii :=
  ascii_of_N (if (n <? 10)%N then 48 + n else 87 + n).

Definition hex_of_byte (b : Byte.byte) : list ascii :=
  let n := Byte.to_N b in [hex_digit (n / 16); hex_digit (n mod 16)].

(** [value.hex()]: two digits for each byte. *)
Definition bytes_hex (value : list Byte.byte) : string :=
  string_of_list_ascii (flat_map hex_of_byte value).

Section convert_bytes.

(** [base58.b58encode(value).decode()], of the [base58] package. *)
Variable b58encode : list Byte.byte -> string.

Definition convert_bytes (value : list Byte.byte) (encoding : string) : string :=
  if String.eqb encoding "base58" then b58encode value
  else "0x" +:+ bytes_hex value.

End convert_bytes.

(** The unsigned integer a byte string denotes, most significant byte
    first. *)
Definition be_value (value : list Byte.byte) : Z :=
  fold_left (fun acc b => acc * 256 + Z.of_N (Byte.to_N b)) value 0.

(** What [convert_hex_to_int] stores under [key] for [value]. *)
Definition convert_entry (key : string) (value : pyval) : pyval :=
  match value with
  | VStr s => convert_string key s
  | VDict _ | VList _ => convert_hex_to_int value
  | v => v
  end.

(** A value that is neither a list nor a dict. *)
Definition is_scalar (v : pyval) : bool :=
  match v with
  | VList _ | VDict _ => false
  | _ => true
  end.

(** *** Events the whole loop can read *)









(** No pool has more than ten records retained. *)
Definition history_bounded (h : gmap string (list flow_record)) : Prop :=
  forall k l, h !! k = Some l -> (length l <= 10)%nat.

(** Every position is stored under the pool id it carries. *)
Definition keyed_by_pool_id (positions : gmap string signal) : Prop :=
  forall k p, positions !! k = Some p -> pool_id p = VStr k.

(** * Properties *)

(** ** The embedding on concrete inputs *)

Example safe_to_numeric_80 : safe_to_numeric (VStr "80") = NInt 128.
Proof. reflexivity. Qed.

Example safe_to_numeric_dot : safe_to_numeric (VStr "12.5") = NFloat (25 # 2).
Proof. reflexivity. Qed.

Example safe_to_numeric_junk : safe_to_numeric (VStr "1.2.3") = NInt 0.
Proof. reflexivity. Qed.

Example safe_to_numeric_prefixed : safe_to_numeric (VStr "0x32") = NInt 50.
Proof. reflexivity. Qed.

Example scenario_result :
  calculate_price_impact scenario_event = Ok (Some (NFloat 500, AtoB, NInt 50)).
Proof. reflexivity. Qed.

(** The same impact evaluated in binary64, where 0.95 is not exact: the
    result is the float printed as 500.00000000000045, eight units in the
    last place above 500. *)
Example scenario_binary64 :
  (PrimFloat.eqb (PrimFloat.abs (1 - 0.95 / 1) * 10000) 500.00000000000045 = true
   /\ PrimFloat.eqb (PrimFloat.abs (1 - 0.95 / 1) * 10000) 500 = false)%float.
Proof. split; reflexivity. Qed.

Example decoder_on_tier :
  convert_hex_to_int
    (VDict [("SlippageBasisPoints", VStr "80"); ("MaxAmountIn", VStr "0x32");
            ("Price", VStr "0.95"); ("Note", VStr "ff")])
  = VDict [("SlippageBasisPoints", VInt 80); ("MaxAmountIn", VInt 50);
           ("Price", VFloat (19 # 20)); ("Note", VStr "ff")].
Proof. reflexivity. Qed.

(** Three AtoB events of pool [P] at 0 s, 5 s and 10 s. *)
Example flow_scenario :
  let r1 := is_isolated_shock "P" AtoB (NInt 0) ∅ in
  let r2 := is_isolated_shock "P" AtoB (NInt 5) (snd r1) in
  let r3 := is_isolated_shock "P" AtoB (NInt 10) (snd r2) in
  (fst r1, fst r2, fst r3) = (true, true, false).
Proof. reflexivity. Qed.

(** The first event of pool [P] creates a pending signal due two seconds
    after the clock reading, sized at the floor of the currency bought. *)
Example first_signal :
  match process_pool_event 7 pool_P_event initial_state with
  | Ok (Some s, st) =>
      fade_direction s = BtoA
      /\ entry_time s = NFloat 9
      /\ position_size s = NFloat 10000000000000000
      /\ status s = pending
      /\ active_positions st !! "P" = Some s
  | _ => False
  end.
Proof. vm_compute. repeat split. Qed.

(** ** Arithmetic of [num] *)

Lemma Qlt_bool_iff (a b : Q) : Qlt_bool a b = true <-> (a < b)%Q.
Proof.
  unfold Qlt_bool. rewrite negb_true_iff. split.
  - intros H. apply Qnot_le_lt. intros Hle.
    apply Qle_bool_iff in Hle. congruence.
  - intros H. destruct (Qle_bool b a) eqn:E; [|reflexivity].
    apply Qle_bool_iff in E. exfalso. apply (Qlt_not_le _ _ H E).
Qed.


Lemma num_val_fl (q : Q) : (num_val (fl q) == q)%Q.
Proof. apply Qred_correct. Qed.

Lemma fl_ext (p q : Q) : (p == q)%Q -> fl p = fl q.
Proof. intros H. unfold fl. f_equal. by apply Qred_complete. Qed.

Lemma py_eq_iff (a b : num) : py_eq a b = true <-> (num_val a == num_val b)%Q.
Proof. apply Qeq_bool_iff. Qed.

Lemma py_eq_false (a b : num) : py_eq a b = false <-> ~ (num_val a == num_val b)%Q.
Proof.
  unfold py_eq. split.
  - apply Qeq_bool_neq.
  - intros H. destruct (Qeq_bool _ _) eqn:E; [|reflexivity].
    apply Qeq_bool_iff in E. contradiction.
Qed.

Lemma py_le_iff (a b : num) : py_le a b = true <-> (num_val a <= num_val b)%Q.
Proof. apply Qle_bool_iff. Qed.

Lemma py_lt_iff (a b : num) : py_lt a b = true <-> (num_val a < num_val b)%Q.
Proof. apply Qlt_bool_iff. Qed.


Lemma num_val_add (a b : num) : (num_val (py_add a b) == num_val a + num_val b)%Q.
Proof.
  destruct a, b; simpl; rewrite ?Qred_correct; try reflexivity.
  all: by rewrite inject_Z_plus.
Qed.

Lemma num_val_sub (a b : num) : (num_val (py_sub a b) == num_val a - num_val b)%Q.
Proof.
  destruct a, b; simpl; rewrite ?Qred_correct; try reflexivity.
  all: unfold Z.sub; rewrite inject_Z_plus, inject_Z_opp; reflexivity.
Qed.


Lemma py_truediv_ok (a b : num) :
  py_eq b (NInt 0) = false -> py_truediv a b = Ok (fl (num_val a / num_val b)).
Proof. intros H. unfold py_truediv. by rewrite H. Qed.

Lemma py_truediv_zero (a b : num) :
  py_eq b (NInt 0) = true -> py_truediv a b = Raise ZeroDivisionError.
Proof. intros H. unfold py_truediv. by rewrite H. Qed.




(** ** Reading dictionaries *)

Lemma py_get_field (v : pyval) (k : string) (dflt : pyval) :
  is_dict v = true -> py_get v k dflt = Ok (field v k dflt).
Proof. by destruct v. Qed.

Lemma py_get_not_dict (v : pyval) (k : string) (dflt : pyval) :
  is_dict v = false -> py_get v k dflt = Raise AttributeError.
Proof. by destruct v. Qed.

(** ** The scan of [_check_direction] *)

Lemma impact_formula (r : Q) :
  py_mul (py_abs (py_sub (fl 1) (fl r))) (NInt 10000) = fl (Qabs (1 - r) * 10000).
Proof.
  unfold py_mul, py_abs, py_sub, fl. simpl num_val.
  apply fl_ext. rewrite !Qred_correct. reflexivity.
Qed.

Lemma ratio_test (reserve max_amount_in : num) :
  (liquidity_ratio ←
     (if py_gt reserve (NInt 0) then py_truediv max_amount_in reserve
      else mret (NInt 0));
   mret (py_ge liquidity_ratio config.MIN_LIQUIDITY_RATIO))
  = Ok (liquidity_ratio_ok reserve max_amount_in).
Proof.
  unfold liquidity_ratio_ok, py_gt, py_lt. simpl (num_val (NInt 0)).
  change (inject_Z 0) with 0%Q.
  destruct (Qlt_bool 0 (num_val reserve)) eqn:E; simpl.
  - rewrite py_truediv_ok.
    + simpl. unfold py_ge, py_le. f_equal.
      apply Qleb_comp; [reflexivity | apply num_val_fl].
    + apply py_eq_false. simpl. apply Qlt_bool_iff in E.
      intros H. rewrite H in E. by apply Qlt_irrefl in E.
  - reflexivity.
Qed.

Lemma forallb_rev {A : Type} (f : A -> bool) (l : list A) :
  forallb f l = true -> forallb f (rev l) = true.
Proof.
  rewrite !forallb_forall. intros H x Hx. apply H. by apply in_rev.
Qed.

Section scan.

Variables (table : pyval) (d : direction) (a b : num).
Hypothesis table_is_dict : is_dict table = true.

(** The loop over well-shaped tiers is a search for the first tier
    accepted. *)
Lemma scan_tiers_find (tiers : list pyval) :
  forallb is_dict tiers = true ->
  scan_tiers table d a b tiers
  = Ok ((fun tier => (impact_of table d tier, d, max_amount_in_of tier))
          <$> List.find (accepts table d a b) tiers).
Proof.
  induction tiers as [|tier rest IH]; intros Hs; [reflexivity|].
  simpl in Hs. apply andb_true_iff in Hs as [Htier Hrest].
  specialize (IH Hrest).
  cbn [scan_tiers List.find].
  rewrite !(py_get_field tier) by done. cbn [mbind result_bind].
  fold (slippage_of tier) (max_amount_in_of tier) (price_of tier).
  unfold accepts at 1.
  destruct (in_band (slippage_of tier)); cbn [negb andb]; [|exact IH].
  rewrite (py_get_field table) by done. cbn [mbind result_bind].
  fold (mid_price_of table d).
  destruct (py_eq (mid_price_of table d) (NInt 0)) eqn:Emid; cbn [negb andb]; [exact IH|].
  rewrite (py_truediv_ok (price_of tier)) by done. cbn [mbind result_bind].
  rewrite impact_formula. fold (impact_of table d tier).
  pose proof (ratio_test (sold_reserve d a b) (max_amount_in_of tier)) as Hr.
  destruct (if py_gt (sold_reserve d a b) (NInt 0)
            then py_truediv (max_amount_in_of tier) (sold_reserve d a b)
            else mret (NInt 0)) as [ratio|e]; [|discriminate Hr].
  cbn [mbind result_bind mret result_ret] in Hr |- *.
  injection Hr as Hr. rewrite Hr.
  destruct (liquidity_ratio_ok _ _); [reflexivity | exact IH].
Qed.

Lemma check_direction_spec :
  tiers_shaped (field table (direction_str d +:+ "Prices") (VList [])) = true ->
  _check_direction table d a b = Ok (first_accepted table d a b).
Proof.
  intros Hs. unfold _check_direction, first_accepted, tiers_of.
  rewrite py_get_field by done. cbn [mbind result_bind].
  destruct (field table (direction_str d +:+ "Prices") (VList [])) as [| | | |l|l] eqn:E;
    unfold tiers_shaped in Hs; try (rewrite Hs; reflexivity).
  destruct l as [|t l]; [reflexivity|].
  cbn [truthy negb py_reversed mbind result_bind].
  apply scan_tiers_find. by apply forallb_rev.
Qed.


End scan.

Lemma table_shaped_dict (table : pyval) :
  table_shaped table = true -> truthy table = true -> is_dict table = true.
Proof. destruct table; simpl; intros H1 H2; rewrite ?H2 in H1; done. Qed.

Lemma table_shaped_tiers (table : pyval) (d : direction) :
  table_shaped table = true -> is_dict table = true ->
  tiers_shaped (field table (direction_str d +:+ "Prices") (VList [])) = true.
Proof.
  destruct table; try discriminate. intros H _.
  unfold table_shaped in H. apply andb_true_iff in H as [HA HB].
  by destruct d.
Qed.

(** [calculate_price_impact] on a well-shaped event, in closed form. *)
Lemma calculate_price_impact_shaped (ev : pyval) :
  event_shaped ev = true ->
  calculate_price_impact ev
  = Ok (if negb (truthy (price_table_of ev)) then None
        else if py_eq (amount_a_of ev) (NInt 0) || py_eq (amount_b_of ev) (NInt 0)
             then None
             else price_impact_spec ev).
Proof.
  unfold event_shaped. rewrite !andb_true_iff. intros [[Hev Htab] Hliq].
  unfold calculate_price_impact.
  rewrite (py_get_field ev "PoolPriceTable") by done. cbn [mbind result_bind].
  fold (price_table_of ev).
  destruct (truthy (price_table_of ev)) eqn:Etr; cbn [negb]; [|reflexivity].
  rewrite (py_get_field ev "Liquidity") by done. cbn [mbind result_bind].
  fold (liquidity_of ev).
  rewrite !(py_get_field (liquidity_of ev)) by done. cbn [mbind result_bind].
  fold (amount_a_of ev) (amount_b_of ev).
  destruct (py_eq (amount_a_of ev) (NInt 0) || py_eq (amount_b_of ev) (NInt 0));
    [reflexivity|].
  pose proof (table_shaped_dict _ Htab Etr) as Hd.
  rewrite !check_direction_spec by (done || by apply table_shaped_tiers).
  cbn [mbind result_bind]. unfold price_impact_spec.
  destruct (first_accepted (price_table_of ev) AtoB _ _); [reflexivity|].
  cbn [mbind result_bind].
  by destruct (first_accepted (price_table_of ev) BtoA _ _).
Qed.

(** ** Price impact: the claims *)




(** Where the sold-side reserve is positive and the mid price of the
    direction is not zero, the scan accepts exactly the tiers that meet the
    two stated conditions. *)
Lemma accepts_as_stated (table : pyval) (d : direction) (a b : num) (tier : pyval) :
  (0 < num_val (sold_reserve d a b))%Q ->
  py_eq (mid_price_of table d) (NInt 0) = false ->
  accepts table d a b tier = stated_qualifying d a b tier.
Proof.
  intros Hpos Hmid. unfold accepts, stated_qualifying, liquidity_ratio_ok.
  apply Qlt_bool_iff in Hpos. rewrite Hmid, Hpos. cbn [negb andb].
  by rewrite andb_true_r.
Qed.

Lemma find_ext_eq {A : Type} (f g : A -> bool) (l : list A) :
  (forall x, f x = g x) -> List.find f l = List.find g l.
Proof.
  intros H. induction l as [|x l IH]; [reflexivity|]. simpl. by rewrite H, IH.
Qed.

(** On events with positive reserves and mid prices that are not zero the
    result is the one the two stated conditions describe. *)
Lemma price_impact_as_stated (ev : pyval) :
  event_shaped ev = true ->
  truthy (price_table_of ev) = true ->
  (0 < num_val (amount_a_of ev))%Q ->
  (0 < num_val (amount_b_of ev))%Q ->
  py_eq (mid_price_of (price_table_of ev) AtoB) (NInt 0) = false ->
  py_eq (mid_price_of (price_table_of ev) BtoA) (NInt 0) = false ->
  calculate_price_impact ev
  = Ok match first_stated (price_table_of ev) AtoB (amount_a_of ev) (amount_b_of ev) with
       | Some r => Some r
       | None => first_stated (price_table_of ev) BtoA (amount_a_of ev) (amount_b_of ev)
       end.
Proof.
  intros Hs Ht Ha Hb HmA HmB.
  rewrite calculate_price_impact_shaped by done. rewrite Ht. cbn [negb].
  assert (Hza : py_eq (amount_a_of ev) (NInt 0) = false).
  { apply py_eq_false. cbn [num_val]. change (inject_Z 0) with 0%Q. lra. }
  assert (Hzb : py_eq (amount_b_of ev) (NInt 0) = false).
  { apply py_eq_false. cbn [num_val]. change (inject_Z 0) with 0%Q. lra. }
  rewrite Hza, Hzb. cbn [orb].
  unfold price_impact_spec, first_accepted, first_stated.
  rewrite (find_ext_eq (accepts (price_table_of ev) AtoB _ _)
             (stated_qualifying AtoB (amount_a_of ev) (amount_b_of ev)))
    by (intros; by apply accepts_as_stated).
  rewrite (find_ext_eq (accepts (price_table_of ev) BtoA _ _)
             (stated_qualifying BtoA (amount_a_of ev) (amount_b_of ev)))
    by (intros; by apply accepts_as_stated).
  reflexivity.
Qed.










(** ** Numeric coercion: the claim *)

Lemma convert_hex_to_int_entry (key value : string) :
  convert_hex_to_int (VDict [(key, VStr value)]) = VDict [(key, convert_string key value)].
Proof. reflexivity. Qed.

Lemma convert_string_hex_first (key value : string) :
  In key numeric_hex_fields -> value <> "" ->
  convert_string key value = convert_hex_first value.
Proof.
  intros Hk Hv. unfold convert_string.
  apply String.eqb_neq in Hv. rewrite Hv.
  simpl in Hk. repeat (destruct Hk as [<- | Hk]; [reflexivity|]). done.
Qed.

Lemma convert_string_decimal_first (key value : string) :
  In key numeric_fields -> value <> "" ->
  convert_string key value = convert_decimal_first value.
Proof.
  intros Hk Hv. unfold convert_string.
  apply String.eqb_neq in Hv. rewrite Hv.
  simpl in Hk. repeat (destruct Hk as [<- | Hk]; [reflexivity|]). done.
Qed.

Lemma convert_string_unparsed (key value : string) :
  pystr.py_int 16 value = None -> parse_decimal value = None ->
  convert_string key value = VStr value.
Proof.
  intros H16 Hdec. unfold convert_string, convert_hex_first, convert_decimal_first.
  rewrite H16, Hdec. by repeat destruct (_ && _).
Qed.

Lemma safe_to_numeric_unparsed (value : string) :
  pystr.py_int 16 value = None -> parse_decimal value = None ->
  safe_to_numeric (VStr value) = NInt 0.
Proof.
  intros H16 Hdec. simpl. rewrite H16, Hdec. by destruct (_ || _).
Qed.

(** [int(s, 16)] on a non-empty string of hexadecimal digits. *)
Lemma hex_char_plain (c : ascii) :
  pystr.is_hex_char c = true ->
  pystr.is_space c = false
  /\ Ascii.eqb c "_" = false
  /\ Ascii.eqb c "+" = false
  /\ Ascii.eqb c "-" = false
  /\ Ascii.eqb c "x" = false
  /\ Ascii.eqb c "X" = false.
Proof.
  destruct c as [[|] [|] [|] [|] [|] [|] [|] [|]]; vm_compute; intros H;
    first [discriminate H | repeat split].
Qed.

Lemma lstrip_hex (l : list ascii) :
  forallb pystr.is_hex_char l = true -> pystr.lstrip l = l.
Proof.
  destruct l as [|c l]; [reflexivity|]. simpl. intros [Hc _]%andb_true_iff.
  by destruct (hex_char_plain c Hc) as [-> _].
Qed.

Lemma strip_hex (l : list ascii) :
  forallb pystr.is_hex_char l = true -> pystr.strip l = l.
Proof.
  intros H. unfold pystr.strip. rewrite (lstrip_hex l H).
  rewrite lstrip_hex, rev_involutive; [reflexivity|].
  rewrite forallb_forall in *. intros x Hx. apply H. by apply in_rev.
Qed.

Lemma digits_loop_hex (l : list ascii) (acc : Z) :
  forallb pystr.is_hex_char l = true ->
  pystr.digits_loop 16 acc false l
  = Some (fold_left (fun acc c => acc * 16 + default 0 (pystr.digit_value c)) l acc).
Proof.
  revert acc. induction l as [|c l IH]; intros acc H; [reflexivity|].
  simpl in H. apply andb_true_iff in H as [Hc Hl].
  destruct (hex_char_plain c Hc) as (_ & Hus & _).
  cbn [pystr.digits_loop fold_left]. rewrite Hus.
  unfold pystr.is_hex_char in Hc.
  destruct (pystr.digit_value c) as [dv|]; [|discriminate].
  rewrite Hc. cbn [default from_option]. by apply IH.
Qed.

Lemma py_int16_all_hex (s : string) :
  s <> "" -> pystr.all_hex s = true -> pystr.py_int 16 s = Some (hex_value s).
Proof.
  intros Hne Hall. unfold pystr.py_int, pystr.all_hex, hex_value in *.
  rewrite strip_hex by done.
  destruct (list_ascii_of_string s) as [|c l] eqn:E.
  { exfalso. apply Hne. rewrite <- (string_of_list_ascii_of_string s), E. reflexivity. }
  assert (Hc : pystr.is_hex_char c = true) by (simpl in Hall; by apply andb_true_iff in Hall as [? _]).
  destruct (hex_char_plain c Hc) as (_ & Hus & Hplus & Hminus & _).
  assert (Hsign : pystr.split_sign (c :: l) = (false, c :: l)).
  { unfold pystr.split_sign. 
    destruct (Ascii.eqb_spec c "+"); [discriminate|].
    destruct (Ascii.eqb_spec c "-"); [discriminate|].
    destruct c as [[|] [|] [|] [|] [|] [|] [|] [|]]; try reflexivity; congruence. }
  rewrite Hsign. cbn [Z.eqb Pos.eqb].
  assert (Hpre : pystr.skip_hex_prefix (c :: l) = c :: l).
  { unfold pystr.skip_hex_prefix. destruct l as [|x r].
    - by destruct c as [[|] [|] [|] [|] [|] [|] [|] [|]].
    - simpl in Hall. apply andb_true_iff in Hall as [_ [Hx _]%andb_true_iff].
      destruct (hex_char_plain x Hx) as (_ & _ & _ & _ & -> & ->).
      by destruct c as [[|] [|] [|] [|] [|] [|] [|] [|]]. }
  rewrite Hpre. unfold pystr.parse_digits. rewrite Hus.
  by rewrite digits_loop_hex.
Qed.

(** C9.  The decoder tries hexadecimal first on the hex-first fields, so a
    non-empty string of hexadecimal digits becomes its hexadecimal value and
    ["a"] becomes the int 10; it tries decimal first on [SlippageBasisPoints],
    [Price], [AtoBPrice] and [BtoAPrice], so ["12.5"] becomes the float 12.5
    (and ["80"] becomes 80 there, 128 on a hex-first field).  A string on
    which the hexadecimal and the decimal attempts both fail is left as it is
    by the decoder, and [safe_to_numeric] returns 0 on it. *)
Theorem C9_numeric_coercion (hex_key dec_key s : string) :
  In hex_key numeric_hex_fields ->
  In dec_key numeric_fields ->
  pystr.py_int 16 s = None ->
  parse_decimal s = None ->
  convert_hex_to_int (VDict [(hex_key, VStr "a")]) = VDict [(hex_key, VInt 10)]
  /\ convert_hex_to_int (VDict [(dec_key, VStr "12.5")]) = VDict [(dec_key, VFloat (25 # 2))]
  /\ convert_hex_to_int (VDict [(hex_key, VStr "80")]) = VDict [(hex_key, VInt 128)]
  /\ convert_hex_to_int (VDict [(dec_key, VStr "80")]) = VDict [(dec_key, VInt 80)]
  /\ (forall v, v <> "" -> pystr.all_hex v = true ->
        convert_hex_to_int (VDict [(hex_key, VStr v)]) = VDict [(hex_key, VInt (hex_value v))])
  /\ (forall v, v <> "" ->
        convert_hex_to_int (VDict [(hex_key, VStr v)]) = VDict [(hex_key, convert_hex_first v)]
        /\ convert_hex_to_int (VDict [(dec_key, VStr v)])
           = VDict [(dec_key, convert_decimal_first v)])
  /\ convert_hex_to_int (VDict [(hex_key, VStr s)]) = VDict [(hex_key, VStr s)]
  /\ convert_hex_to_int (VDict [(dec_key, VStr s)]) = VDict [(dec_key, VStr s)]
  /\ safe_to_numeric (VStr s) = NInt 0.
Proof.
  intros Hh Hd H16 Hdec. rewrite !convert_hex_to_int_entry.
  split; [by rewrite convert_string_hex_first|].
  split; [by rewrite convert_string_decimal_first|].
  split; [by rewrite convert_string_hex_first|].
  split; [by rewrite convert_string_decimal_first|].
  split.
  { intros v Hv Hall. rewrite convert_hex_to_int_entry, convert_string_hex_first by done.
    unfold convert_hex_first. by rewrite py_int16_all_hex. }
  split.
  { intros v Hv. rewrite !convert_hex_to_int_entry.
    by rewrite convert_string_hex_first, convert_string_decimal_first. }
  split; [by rewrite convert_string_unparsed|].
  split; [by rewrite convert_string_unparsed|].
  by apply safe_to_numeric_unparsed.
Qed.

Lemma C9_numeric_coercion_witness :
  In "MaxAmountIn" numeric_hex_fields
  /\ In "Price" numeric_fields
  /\ pystr.py_int 16 "1.2.3" = None
  /\ parse_decimal "1.2.3" = None
  /\ convert_hex_to_int (VDict [("MaxAmountIn", VStr "1.2.3")])
     = VDict [("MaxAmountIn", VStr "1.2.3")]
  /\ safe_to_numeric (VStr "1.2.3") = NInt 0.
Proof.
  assert (Hh : In "MaxAmountIn" numeric_hex_fields) by (simpl; tauto).
  assert (Hd : In "Price" numeric_fields) by (simpl; tauto).
  repeat (split; [first [reflexivity | assumption]|]).
  destruct (C9_numeric_coercion "MaxAmountIn" "Price" "1.2.3" Hh Hd eq_refl eq_refl)
    as (_ & _ & _ & _ & _ & _ & H1 & _ & H2).
  by split.
Defined.

(** ** Flow detection *)

Lemma filter_filter_andb {A : Type} (f g : A -> bool) (l : list A) :
  List.filter f (List.filter g l) = List.filter (fun x => g x && f x) l.
Proof.
  induction l as [|x l IH]; [reflexivity|]. simpl.
  destruct (g x); simpl; [|exact IH]. destruct (f x); by rewrite IH.
Qed.

Lemma deque_snoc {A : Type} (n : nat) (l : list A) (x : A) :
  deque (S n) (l ++ [x]) = deque n l ++ [x].
Proof.
  unfold deque. rewrite length_app. simpl.
  replace (length l + 1 - S n)%nat with (length l - n)%nat by lia.
  apply drop_app_le. lia.
Qed.

Lemma deque_append_snoc {A : Type} (n : nat) (l : list A) (x : A) :
  deque_append (S n) l x = deque n l ++ [x].
Proof. apply deque_snoc. Qed.

Lemma is_isolated_shock_verdict (key : string) (d : direction) (t : num)
    (h : gmap string (list flow_record)) :
  fst (is_isolated_shock key d t h)
  = bool_decide (same_direction_count h key d t ≤ config.MAX_SAME_DIRECTION_EVENTS)%nat.
Proof.
  unfold is_isolated_shock, same_direction_count, retained. cbn [fst].
  rewrite filter_filter_andb.
  destruct (h !! key) as [l|] eqn:E.
  - by rewrite lookup_total_alt, E.
  - by rewrite lookup_total_insert_eq.
Qed.

Lemma is_isolated_shock_history (key : string) (d : direction) (t : num)
    (h : gmap string (list flow_record)) :
  snd (is_isolated_shock key d t h)
  = <[key := deque 9 (deque 10 (List.filter (in_window t) (retained h key)))
             ++ [flow_entry d t]]> h.
Proof.
  unfold is_isolated_shock, retained, flow_entry. cbn [snd].
  rewrite lookup_total_insert_eq, deque_append_snoc.
  destruct (h !! key) as [l|] eqn:E.
  - rewrite lookup_total_alt, E. cbn [default from_option].
    by rewrite insert_insert_eq.
  - rewrite lookup_total_insert_eq. cbn [default from_option].
    by rewrite !insert_insert_eq.
Qed.

Lemma retained_after (key : string) (d : direction) (t : num)
    (h : gmap string (list flow_record)) :
  retained (snd (is_isolated_shock key d t h)) key
  = deque 9 (deque 10 (List.filter (in_window t) (retained h key))) ++ [flow_entry d t].
Proof.
  rewrite is_isolated_shock_history. unfold retained at 1.
  by rewrite lookup_insert_eq.
Qed.

Lemma retained_after_other (key key' : string) (d : direction) (t : num)
    (h : gmap string (list flow_record)) :
  key <> key' ->
  snd (is_isolated_shock key d t h) !! key' = h !! key'.
Proof.
  intros Hne. rewrite is_isolated_shock_history. by rewrite lookup_insert_ne.
Qed.

Lemma filter_snoc_true {A : Type} (f : A -> bool) (l : list A) (x : A) :
  f x = true -> List.filter f (l ++ [x]) = List.filter f l ++ [x].
Proof. intros H. rewrite List.filter_app. simpl. by rewrite H. Qed.

Lemma in_window_later (t1 t2 t3 : num) (d : direction) :
  py_le t1 t2 = true -> py_le t2 t3 = true ->
  in_window t3 (flow_entry d t1) = true ->
  in_window t2 (flow_entry d t1) = true /\ in_window t3 (flow_entry d t2) = true.
Proof.
  unfold in_window. cbn [fr_time flow_entry].
  rewrite !py_le_iff, !py_lt_iff, !num_val_sub.
  intros H12 H23 H. split; lra.
Qed.

(** C4.  [is_isolated_shock] answers [True] exactly when the retained
    records of the pool that lie in the window of [t] (their age is less than
    [FLOW_DETECTION_WINDOW_SECONDS]) and have the direction of the call
    number at most [MAX_SAME_DIRECTION_EVENTS]; the first event
    of a pool without history is isolated; and with the limit 1 a third event
    in the same direction, within the window of the first two, is not. *)
Theorem C4_isolated_shock (h : gmap string (list flow_record)) (key : string)
    (d : direction) (t1 t2 t3 : num) :
  py_le t1 t2 = true ->
  py_le t2 t3 = true ->
  py_lt (py_sub t3 t1) config.FLOW_DETECTION_WINDOW_SECONDS = true ->
  (forall t, fst (is_isolated_shock key d t h) = true
             <-> (same_direction_count h key d t ≤ config.MAX_SAME_DIRECTION_EVENTS)%nat)
  /\ (h !! key = None -> forall t, fst (is_isolated_shock key d t h) = true)
  /\ (let h1 := snd (is_isolated_shock key d t1 h) in
      let h2 := snd (is_isolated_shock key d t2 h1) in
      fst (is_isolated_shock key d t3 h2) = false).
Proof.
  intros H12 H23 Hw. split; [|split].
  - intros t. rewrite is_isolated_shock_verdict. apply bool_decide_eq_true.
  - intros Hnone t. rewrite is_isolated_shock_verdict.
    apply bool_decide_eq_true. unfold same_direction_count, retained.
    rewrite Hnone. simpl. unfold config.MAX_SAME_DIRECTION_EVENTS. lia.
  - cbn zeta. rewrite is_isolated_shock_verdict.
    apply bool_decide_eq_false. unfold same_direction_count.
    rewrite !retained_after.
    destruct (in_window_later t1 t2 t3 d H12 H23 Hw) as [Hw21 Hw32].
    set (A := deque 9 (deque 10 (List.filter (in_window t1) (retained h key)))).
    rewrite (filter_snoc_true (in_window t2)) by done.
    change 10%nat with (S 9). rewrite deque_snoc.
    change 9%nat with (S 8) at 1. rewrite deque_snoc.
    set (B := deque 8 (deque 9 (List.filter (in_window t2) A))).
    assert (Hsame : forall t, same_direction d (flow_entry d t) = true)
      by (intros; by apply bool_decide_eq_true).
    assert (Hw31 : in_window t3 (flow_entry d t1) = true) by exact Hw.
    rewrite filter_snoc_true by (cbn beta; by rewrite Hsame, Hw32).
    rewrite filter_snoc_true by (cbn beta; by rewrite Hsame, Hw31).
    rewrite !length_app. simpl. unfold config.MAX_SAME_DIRECTION_EVENTS. lia.
Qed.

Lemma C4_isolated_shock_witness :
  py_le (NInt 0) (NInt 5) = true
  /\ py_le (NInt 5) (NInt 10) = true
  /\ py_lt (py_sub (NInt 10) (NInt 0)) config.FLOW_DETECTION_WINDOW_SECONDS = true
  /\ (let h1 := snd (is_isolated_shock "P" AtoB (NInt 0) ∅) in
      let h2 := snd (is_isolated_shock "P" AtoB (NInt 5) h1) in
      fst (is_isolated_shock "P" AtoB (NInt 0) ∅) = true
      /\ fst (is_isolated_shock "P" AtoB (NInt 10) h2) = false).
Proof.
  do 3 (split; [reflexivity|]).
  destruct (C4_isolated_shock ∅ "P" AtoB (NInt 0) (NInt 5) (NInt 10) eq_refl eq_refl eq_refl)
    as (_ & Hfirst & Hthird).
  cbn zeta. split; [by apply Hfirst | exact Hthird].
Defined.

(** ** Inversion of the [result] monad *)

Lemma bind_Ok {A B : Type} (m : result A) (f : A -> result B) (b : B) :
  m ≫= f = Ok b -> exists a, m = Ok a /\ f a = Ok b.
Proof. destruct m as [a|e]; [by exists a | discriminate]. Qed.

Lemma py_get_Ok (v : pyval) (k : string) (dflt x : pyval) :
  py_get v k dflt = Ok x -> is_dict v = true /\ x = field v k dflt.
Proof. destruct v; try discriminate. simpl. intros [= <-]. done. Qed.

Lemma as_key_Ok (v : pyval) (key : string) : as_key v = Ok key -> v = VStr key.
Proof. destruct v; try discriminate. by intros [= ->]. Qed.

Lemma key_in_str {A : Type} (key : string) (d : gmap string A) :
  key_in (VStr key) d = Ok (bool_decide (is_Some (d !! key))).
Proof. reflexivity. Qed.

Tactic Notation "inv_bind" hyp(H) "as" ident(a) ident(Ha) :=
  apply bind_Ok in H as (a & Ha & H).

Ltac inv_get H :=
  let v := fresh "v" in
  let Hv := fresh "Hv" in
  let Hd := fresh "Hd" in
  apply bind_Ok in H as (v & Hv & H);
  apply py_get_Ok in Hv as [Hd ->].

(** ** [should_fade] *)

(** The verdict and the state [should_fade] returns once the flow check is
    reached. *)
Lemma should_fade_at_flow_check (ev : pyval) (i : num) (d : direction) (s : num)
    (st : state) (key : string) (t : num) :
  reaches_flow_check ev key t ->
  should_fade ev (i, d, s) st
  = Ok (fst (is_isolated_shock key d t (pool_event_history st))
        && negb (bool_decide (is_Some (active_positions st !! key))),
        {| pool_event_history := snd (is_isolated_shock key d t (pool_event_history st));
           active_positions := active_positions st |}).
Proof.
  intros (Hev & Hpool & Hpid & Hne & Hhdr & n & Hnum & Hdiv).
  unfold should_fade.
  rewrite (py_get_field ev "Pool") by done. cbn [mbind result_bind].
  fold (pool_of ev). rewrite (py_get_field (pool_of ev)) by done.
  cbn [mbind result_bind]. fold (pool_id_of ev). rewrite Hpid.
  cbn [truthy]. apply String.eqb_neq in Hne. rewrite Hne. cbn [negb].
  rewrite (py_get_field ev "TransactionHeader") by done. cbn [mbind result_bind].
  rewrite py_get_field by done. cbn [mbind result_bind].
  fold (time_of ev). rewrite Hnum. cbn [mbind result_bind].
  rewrite Hdiv. cbn [mbind result_bind as_key].
  destruct (is_isolated_shock key d t (pool_event_history st)) as [isolated h].
  cbn [fst snd]. destruct isolated; cbn [negb andb]; [|reflexivity].
  rewrite key_in_str. cbn [mbind result_bind active_positions].
  by destruct (bool_decide _).
Qed.

(** Whatever the event, [should_fade] leaves the registry as it is, and it
    answers [True] only for a pool id that has no entry. *)
Lemma should_fade_registry (ev : pyval) (impact : impact_data) (st : state)
    (b : bool) (st' : state) :
  should_fade ev impact st = Ok (b, st') ->
  active_positions st' = active_positions st
  /\ (b = true ->
      exists key, is_dict ev = true /\ is_dict (pool_of ev) = true
                  /\ pool_id_of ev = VStr key /\ active_positions st !! key = None).
Proof.
  destruct impact as [[i d] s]. unfold should_fade. intros H.
  inv_get H. fold (pool_of ev) in H.
  inv_get H. fold (pool_id_of ev) in H.
  destruct (truthy (pool_id_of ev)); cbn [negb] in H;
    [|injection H as <- <-; split; [reflexivity | discriminate]].
  inv_get H. inv_get H.
  inv_bind H as n Hn. inv_bind H as t Ht. inv_bind H as key Hkey.
  apply as_key_Ok in Hkey as Hpid. rewrite Hpid in H.
  destruct (is_isolated_shock key d t (pool_event_history st)) as [isolated h].
  destruct isolated; cbn [negb] in H;
    [|injection H as <- <-; split; [reflexivity | discriminate]].
  rewrite key_in_str in H. cbn [mbind result_bind active_positions] in H.
  destruct (bool_decide (is_Some (active_positions st !! key))) eqn:E;
    injection H as <- <-; (split; [reflexivity|]); [discriminate|].
  intros _. exists key. repeat split; try done.
  apply bool_decide_eq_false in E. by apply eq_None_not_Some.
Qed.

(** C10.  Once the flow check is reached for a pool id that is not empty,
    [should_fade] has appended the record of the event to the history of the
    pool, also when it answers [False] because the pool has an entry in the
    registry; and no call of [should_fade] changes the registry. *)
Theorem C10_flow_history_side_effect (ev : pyval) (i : num) (d : direction) (s : num)
    (st : state) (key : string) (t : num) :
  reaches_flow_check ev key t ->
  (exists b st',
      should_fade ev (i, d, s) st = Ok (b, st')
      /\ pool_event_history st'
         = snd (is_isolated_shock key d t (pool_event_history st))
      /\ last (retained (pool_event_history st') key) = Some (flow_entry d t)
      /\ (forall key', key' <> key ->
            pool_event_history st' !! key' = pool_event_history st !! key')
      /\ active_positions st' = active_positions st
      /\ (is_Some (active_positions st !! key) -> b = false))
  /\ (forall ev' impact b st',
        should_fade ev' impact st = Ok (b, st') ->
        active_positions st' = active_positions st).
Proof.
  intros Hr. split.
  - eexists _, _. split; [by apply should_fade_at_flow_check|].
    cbn [pool_event_history active_positions].
    repeat split.
    + rewrite retained_after. apply last_snoc.
    + intros key' Hne. by apply retained_after_other.
    + intros Hsome. rewrite (bool_decide_eq_true_2 _ Hsome).
      apply andb_false_r.
  - intros ev' impact b st' H. by apply should_fade_registry in H as [? _].
Qed.

(** ** [create_fade_signal], [process_pool_event] and [monitor_positions] *)

Lemma create_fade_signal_pool_id (now : Q) (ev : pyval) (impact : impact_data)
    (s : signal) :
  create_fade_signal now ev impact = Ok s ->
  pool_id s = pool_id_of ev /\ status s = pending.
Proof.
  destruct impact as [[i d] sz]. unfold create_fade_signal. intros H.
  inv_get H. fold (pool_of ev) in H.
  inv_get H. fold (pool_id_of ev) in H.
  inv_get H. inv_get H.
  inv_bind H as size Hsize. inv_bind H as da Hda. inv_bind H as db Hdb.
  inv_get H. inv_get H. inv_get H.
  by injection H as <-.
Qed.

(** A signal is created only for a pool id without an entry, and is stored
    under that id; otherwise the registry is left as it is. *)
Lemma process_pool_event_registry (now : Q) (ev : pyval) (st : state)
    (made : option signal) (st' : state) :
  process_pool_event now ev st = Ok (made, st') ->
  match made with
  | None => active_positions st' = active_positions st
  | Some s =>
      exists key, pool_id_of ev = VStr key /\ pool_id s = VStr key
                  /\ status s = pending
                  /\ active_positions st !! key = None
                  /\ active_positions st' = <[key := s]> (active_positions st)
  end.
Proof.
  unfold process_pool_event. intros H.
  inv_get H. fold (pool_of ev) in H.
  inv_get H. fold (pool_id_of ev) in H.
  destruct (truthy (pool_id_of ev)); cbn [negb] in H; [|by injection H as <- <-].
  inv_bind H as found Hfound.
  destruct found as [[[i d] sz]|]; [|by injection H as <- <-].
  inv_bind H as sd Hsd. inv_get H. inv_get H. inv_bind H as shown Hshown.
  inv_bind H as verdict Hfade. destruct verdict as [fade st1].
  apply should_fade_registry in Hfade as [Hreg Hfade].
  destruct fade; [|by injection H as <- <-].
  destruct (Hfade eq_refl) as (key & _ & _ & Hpid & Hfree).
  inv_bind H as s Hs. inv_bind H as pd Hpd. inv_bind H as shown' Hshown'.
  inv_bind H as key' Hkey. injection H as <- <-.
  apply create_fade_signal_pool_id in Hs as [Hs Hst].
  rewrite Hpid in Hkey. injection Hkey as <-.
  exists key. cbn [add_position active_positions]. rewrite Hreg, Hs.
  by repeat split.
Qed.

(** What [monitor_positions] can do to the state. *)
Lemma monitor_positions_effect (now : Q) (ev : pyval) (st st' : state) :
  monitor_positions now ev st = Ok st' ->
  st' = st
  \/ exists key p,
       pool_id_of ev = VStr key
       /\ active_positions st !! key = Some p
       /\ py_lt (NFloat now) (entry_time p) = false
       /\ status p = pending
       /\ st' = add_position key (set_status entered p) st.
Proof.
  unfold monitor_positions, get_active_positions. intros H.
  inv_get H. fold (pool_of ev) in H.
  inv_get H. fold (pool_id_of ev) in H.
  inv_bind H as held Hheld.
  destruct held; cbn [negb] in H; [|injection H as <-; by left].
  inv_bind H as key Hkey. apply as_key_Ok in Hkey as Hpid.
  destruct (active_positions st !! key) as [p|] eqn:E; [|injection H as <-; by left].
  destruct (py_lt (NFloat now) (entry_time p)) eqn:Et; [injection H as <-; by left|].
  inv_get H. injection H as <-.
  destruct (bool_decide (status p = pending)) eqn:Es; [|by left].
  apply bool_decide_eq_true in Es. right. by exists key, p.
Qed.

Lemma monitor_positions_returns (now : Q) (ev : pyval) (st : state) (key : string) :
  is_dict ev = true -> is_dict (pool_of ev) = true -> pool_id_of ev = VStr key ->
  monitor_positions now ev st
  = Ok match active_positions st !! key with
       | None => st
       | Some p =>
           if py_lt (NFloat now) (entry_time p) then st
           else if bool_decide (status p = pending)
                then add_position key (set_status entered p) st
                else st
       end.
Proof.
  intros Hev Hpool Hpid. unfold monitor_positions, get_active_positions.
  rewrite (py_get_field ev "Pool") by done. cbn [mbind result_bind].
  fold (pool_of ev). rewrite (py_get_field (pool_of ev)) by done.
  cbn [mbind result_bind]. fold (pool_id_of ev). rewrite Hpid, key_in_str.
  cbn [mbind result_bind].
  destruct (active_positions st !! key) as [p|] eqn:E.
  - rewrite bool_decide_eq_true_2 by done. cbn [negb as_key mbind result_bind].
    rewrite E. destruct (py_lt _ _); [reflexivity|].
    by rewrite (py_get_field ev "PoolPriceTable") by done.
  - rewrite bool_decide_eq_false_2; [reflexivity|]. by intros [? ?].
Qed.

Lemma monitor_positions_entries (now : Q) (ev : pyval) (st st' : state) :
  monitor_positions now ev st = Ok st' ->
  pool_event_history st' = pool_event_history st
  /\ (forall k, is_Some (active_positions st' !! k) <-> is_Some (active_positions st !! k))
  /\ (forall k p p',
        active_positions st !! k = Some p -> active_positions st' !! k = Some p' ->
        p' = p \/ (status p = pending /\ p' = set_status entered p)).
Proof.
  intros H. apply monitor_positions_effect in H
    as [-> | (key & p & Hpid & Hp & Ht & Hs & ->)].
  - repeat split; try done. intros k p p' H1 H2. left. congruence.
  - cbn [add_position pool_event_history active_positions]. repeat split.
    + destruct (decide (key = k)) as [<- | Hne].
      * rewrite lookup_insert_eq, Hp. by intros _.
      * by rewrite lookup_insert_ne.
    + destruct (decide (key = k)) as [<- | Hne].
      * rewrite lookup_insert_eq, Hp. by intros _.
      * by rewrite lookup_insert_ne.
    + intros k q q' H1 H2. destruct (decide (key = k)) as [<- | Hne].
      * rewrite lookup_insert_eq in H2. right. split; congruence.
      * rewrite lookup_insert_ne in H2 by done. left. congruence.
Qed.

(** C3.  [monitor_positions] leaves the state as it is when the pool of the
    event has no entry, and when the clock reads less than the [entry_time]
    of the entry; otherwise it turns the status [pending] into [entered] and
    changes nothing else.  No call removes an entry, adds one, or makes a
    status [closed]: the exit evaluation compares nothing and closes
    nothing. *)
Theorem C3_monitor_positions (now : Q) (ev : pyval) (st : state) (key : string) :
  is_dict ev = true ->
  is_dict (pool_of ev) = true ->
  pool_id_of ev = VStr key ->
  (active_positions st !! key = None -> monitor_positions now ev st = Ok st)
  /\ (forall p, active_positions st !! key = Some p ->
        py_lt (NFloat now) (entry_time p) = true ->
        monitor_positions now ev st = Ok st)
  /\ (forall p, active_positions st !! key = Some p ->
        py_lt (NFloat now) (entry_time p) = false ->
        status p = pending ->
        exists st',
          monitor_positions now ev st = Ok st'
          /\ active_positions st' = <[key := set_status entered p]> (active_positions st)
          /\ pool_event_history st' = pool_event_history st
          /\ status (set_status entered p) = entered)
  /\ (forall p, active_positions st !! key = Some p ->
        py_lt (NFloat now) (entry_time p) = false ->
        status p <> pending ->
        monitor_positions now ev st = Ok st)
  /\ (forall now' ev' st0 st',
        monitor_positions now' ev' st0 = Ok st' ->
        pool_event_history st' = pool_event_history st0
        /\ (forall k, is_Some (active_positions st' !! k)
                      <-> is_Some (active_positions st0 !! k))
        /\ (forall k p p',
              active_positions st0 !! k = Some p ->
              active_positions st' !! k = Some p' ->
              (p' = p \/ (status p = pending /\ p' = set_status entered p))
              /\ (status p' = closed -> status p = closed))).
Proof.
  intros Hev Hpool Hpid.
  pose proof (monitor_positions_returns now ev st key Hev Hpool Hpid) as Hm.
  split; [|split; [|split; [|split]]].
  - intros E. by rewrite E in Hm.
  - intros p E Ht. by rewrite E, Ht in Hm.
  - intros p E Ht Hs. rewrite E, Ht, (bool_decide_eq_true_2 _ Hs) in Hm.
    eexists. split; [exact Hm|]. done.
  - intros p E Ht Hs. by rewrite E, Ht, (bool_decide_eq_false_2 _ Hs) in Hm.
  - intros now' ev' st0 st' H.
    apply monitor_positions_entries in H as (Hh & Hdom & Hent).
    split; [done|]. split; [done|].
    intros k p p' H1 H2. destruct (Hent k p p' H1 H2) as [-> | [Hs ->]].
    + split; [by left | done].
    + split; [by right | discriminate].
Qed.

Lemma pool_P_reaches_flow_check : reaches_flow_check pool_P_event "P" (NInt 7).
Proof.
  repeat split; try reflexivity; try discriminate.
  exists (NInt 7000000000). by split.
Qed.

Lemma C3_monitor_positions_witness :
  is_dict pool_P_event = true
  /\ is_dict (pool_of pool_P_event) = true
  /\ pool_id_of pool_P_event = VStr "P"
  /\ monitor_positions 8 pool_P_event holding_P = Ok holding_P
  /\ exists st',
       monitor_positions 9 pool_P_event holding_P = Ok st'
       /\ active_positions st' = <[ "P" := set_status entered pending_P ]> (active_positions holding_P).
Proof.
  do 3 (split; [reflexivity|]).
  destruct (C3_monitor_positions 8 pool_P_event holding_P "P" eq_refl eq_refl eq_refl)
    as (_ & Hwait & _).
  destruct (C3_monitor_positions 9 pool_P_event holding_P "P" eq_refl eq_refl eq_refl)
    as (_ & _ & Hdue & _).
  split.
  - by apply (Hwait pending_P).
  - destruct (Hdue pending_P) as (st' & H1 & H2 & _); [done..|].
    by exists st'.
Defined.

Lemma C10_flow_history_side_effect_witness :
  reaches_flow_check pool_P_event "P" (NInt 7)
  /\ exists b st',
       should_fade pool_P_event (NFloat 500, AtoB, NInt 50) holding_P = Ok (b, st')
       /\ last (retained (pool_event_history st') "P") = Some (flow_entry AtoB (NInt 7))
       /\ active_positions st' = active_positions holding_P
       /\ b = false.
Proof.
  split; [exact pool_P_reaches_flow_check|].
  destruct (C10_flow_history_side_effect pool_P_event (NFloat 500) AtoB (NInt 50)
              holding_P "P" (NInt 7) pool_P_reaches_flow_check)
    as ((b & st' & H1 & _ & H3 & _ & H5 & H6) & _).
  exists b, st'. repeat split; try done.
  apply H6. by eexists.
Defined.

(** ** Runs of the polling loop *)

Lemma handle_event_registry (now_m now_s : Q) (ev : pyval) (st : state)
    (made : option signal) (st' : state) :
  handle_event now_m now_s ev st = Ok (made, st') ->
  (forall k, is_Some (active_positions st !! k) -> is_Some (active_positions st' !! k))
  /\ match made with
     | None => forall k, active_positions st' !! k = None -> active_positions st !! k = None
     | Some s =>
         exists key, pool_id s = VStr key
                     /\ active_positions st !! key = None
                     /\ active_positions st' !! key = Some s
                     /\ (forall k, active_positions st' !! k = None ->
                                   active_positions st !! k = None)
     end.
Proof.
  unfold handle_event. intros H. inv_bind H as st1 Hmon.
  apply monitor_positions_entries in Hmon as (_ & Hdom & _).
  apply process_pool_event_registry in H.
  assert (Hnone : forall k, active_positions st1 !! k = None -> active_positions st !! k = None).
  { intros k Hk. apply eq_None_not_Some. rewrite <- Hdom. by apply eq_None_not_Some. }
  destruct made as [s|].
  - destruct H as (key & _ & Hs & _ & Hfree & Hreg). split.
    + intros k Hk. rewrite Hreg. apply Hdom in Hk.
      destruct (decide (key = k)) as [<- | Hne];
        [by rewrite lookup_insert_eq | by rewrite lookup_insert_ne].
    + exists key. repeat split; try done.
      * by apply Hnone.
      * by rewrite Hreg, lookup_insert_eq.
      * intros k Hk. rewrite Hreg in Hk. apply Hnone.
        destruct (decide (key = k)) as [<- | Hne];
          [by rewrite lookup_insert_eq in Hk | by rewrite lookup_insert_ne in Hk].
  - rewrite H. split; [intros k; apply Hdom | exact Hnone].
Qed.

(** Over a run, every signal created is for a pool id that had no entry when
    the run began, has an entry when it ends, and no two signals created are
    for the same pool id. *)
Lemma handle_events_signals (events : list (Q * Q * pyval)) :
  forall (st : state) (sigs : list signal) (st' : state),
    handle_events events st = Ok (sigs, st') ->
    (forall k, is_Some (active_positions st !! k) -> is_Some (active_positions st' !! k))
    /\ NoDup (pool_id <$> sigs)
    /\ (forall s, s ∈ sigs ->
          exists key, pool_id s = VStr key
                      /\ active_positions st !! key = None
                      /\ is_Some (active_positions st' !! key)).
Proof.
  induction events as [|[[now_m now_s] ev] rest IH]; intros st sigs st' H.
  - injection H as <- <-. repeat split; [done | constructor | by intros s ?%elem_of_nil].
  - cbn [handle_events] in H. inv_bind H as r1 Hev. destruct r1 as [made st1].
    inv_bind H as r2 Hrest. destruct r2 as [sigs' st2]. injection H as <- <-.
    apply handle_event_registry in Hev as [Hdom1 Hmade].
    apply IH in Hrest as (Hdom2 & Hnd & Hfresh).
    split; [by intros k Hk; apply Hdom2, Hdom1|].
    destruct made as [s|].
    + destruct Hmade as (key & Hs & Hfree & Hin & Hnone).
      split; [|intros s' [-> | Hs']%elem_of_cons].
      * rewrite fmap_cons. constructor; [|done].
        intros (s' & Heq & Hs')%list_elem_of_fmap.
        destruct (Hfresh s' Hs') as (k & Hk & Hk1 & _).
        rewrite Hs, Hk in Heq. injection Heq as <-. congruence.
      * exists key. repeat split; try done. apply Hdom2. by rewrite Hin.
      * destruct (Hfresh s' Hs') as (k & Hk & Hk1 & Hk2).
        exists k. repeat split; try done. by apply Hnone.
    + split; [done|]. intros s' Hs'.
      destruct (Hfresh s' Hs') as (k & Hk & Hk1 & Hk2).
      exists k. repeat split; try done. by apply Hmade.
Qed.

(** Over a run, the entries present at the start stay, and a position is
    [closed] at the end only if it was [closed] at the start: starting from
    the empty registry, every position is [pending] or [entered]. *)
Lemma handle_events_never_closes (events : list (Q * Q * pyval)) :
  forall (st : state) (sigs : list signal) (st' : state),
    handle_events events st = Ok (sigs, st') ->
    (forall k p, active_positions st !! k = Some p -> status p <> closed) ->
    forall k p, active_positions st' !! k = Some p -> status p <> closed.
Proof.
  induction events as [|[[now_m now_s] ev] rest IH]; intros st sigs st' H Hinv.
  - by injection H as <- <-.
  - cbn [handle_events] in H. inv_bind H as r1 Hev. destruct r1 as [made st1].
    inv_bind H as r2 Hrest. destruct r2 as [sigs' st2]. injection H as <- <-.
    apply (IH _ _ _ Hrest). clear IH Hrest.
    unfold handle_event in Hev. inv_bind Hev as st0 Hmon.
    apply monitor_positions_entries in Hmon as (_ & Hdom & Hent).
    assert (Hinv0 : forall k p, active_positions st0 !! k = Some p -> status p <> closed).
    { intros k p Hp. destruct (Hdom k) as [Hsome _].
      destruct Hsome as [q Hq]; [by eexists|].
      destruct (Hent k q p Hq Hp) as [-> | [_ ->]]; [by apply (Hinv k)|discriminate]. }
    apply process_pool_event_registry in Hev.
    destruct made as [s|].
    + destruct Hev as (key & _ & _ & Hst & _ & Hreg). intros k p. rewrite Hreg.
      destruct (decide (key = k)) as [<- | Hne].
      * rewrite lookup_insert_eq. intros [= <-]. by rewrite Hst.
      * rewrite lookup_insert_ne by done. apply Hinv0.
    + by rewrite Hev.
Qed.

(** C2.  While the registry holds an entry for the pool of an event,
    [should_fade] answers [False] and [process_pool_event] creates no signal
    and leaves the registry as it is; a signal is created, and stored under
    its pool id, only where the registry has no entry for that id; so over
    any run of the loop no two signals are created for one pool id. *)
Theorem C2_one_position_per_pool (ev : pyval) (impact : impact_data) (st : state)
    (key : string) (t : num) :
  reaches_flow_check ev key t ->
  is_Some (active_positions st !! key) ->
  (exists st', should_fade ev impact st = Ok (false, st')
               /\ active_positions st' = active_positions st)
  /\ (forall now made st',
        process_pool_event now ev st = Ok (made, st') ->
        made = None /\ active_positions st' = active_positions st)
  /\ (forall ev0 impact0 st0 st',
        should_fade ev0 impact0 st0 = Ok (true, st') ->
        exists key0, pool_id_of ev0 = VStr key0 /\ active_positions st0 !! key0 = None)
  /\ (forall now ev0 st0 s st',
        process_pool_event now ev0 st0 = Ok (Some s, st') ->
        exists key0, pool_id_of ev0 = VStr key0
                     /\ active_positions st0 !! key0 = None
                     /\ active_positions st' = <[key0 := s]> (active_positions st0))
  /\ (forall events st0 sigs st',
        handle_events events st0 = Ok (sigs, st') ->
        NoDup (pool_id <$> sigs)
        /\ (forall s, s ∈ sigs ->
              exists key0, pool_id s = VStr key0
                           /\ active_positions st0 !! key0 = None
                           /\ is_Some (active_positions st' !! key0))).
Proof.
  intros Hr Hheld. destruct impact as [[i d] sz].
  split; [|split; [|split; [|split]]].
  - eexists. rewrite (should_fade_at_flow_check _ _ _ _ _ _ _ Hr).
    rewrite (bool_decide_eq_true_2 _ Hheld), andb_false_r. by split.
  - intros now made st' H. apply process_pool_event_registry in H.
    destruct made as [s|]; [|by split].
    destruct H as (key0 & Hpid & _ & _ & Hfree & _).
    destruct Hr as (_ & _ & Hkey & _). rewrite Hkey in Hpid. injection Hpid as <-.
    rewrite Hfree in Hheld. by destruct Hheld.
  - intros ev0 impact0 st0 st' H. apply should_fade_registry in H as [_ H].
    destruct (H eq_refl) as (key0 & _ & _ & Hpid & Hfree). by exists key0.
  - intros now ev0 st0 s st' H. apply process_pool_event_registry in H.
    destruct H as (key0 & Hpid & _ & _ & Hfree & Hreg). by exists key0.
  - intros events st0 sigs st' H.
    by apply handle_events_signals in H as (_ & Hnd & Hfresh).
Qed.

Lemma C2_one_position_per_pool_witness :
  reaches_flow_check pool_P_event "P" (NInt 7)
  /\ is_Some (active_positions holding_P !! "P")
  /\ exists st', should_fade pool_P_event (NFloat 500, AtoB, NInt 50) holding_P = Ok (false, st')
                 /\ active_positions st' = active_positions holding_P.
Proof.
  assert (Hheld : is_Some (active_positions holding_P !! "P")) by (by eexists).
  split; [exact pool_P_reaches_flow_check|]. split; [exact Hheld|].
  by destruct (C2_one_position_per_pool pool_P_event (NFloat 500, AtoB, NInt 50)
                 holding_P "P" (NInt 7) pool_P_reaches_flow_check Hheld) as [H _].
Defined.

(** ** Position sizing *)




Lemma size_from_zero_division (base : num) (decimals : pyval) (impact_bp : num) :
  (num_val impact_bp == - (1000))%Q ->
  size_from base decimals impact_bp = Raise ZeroDivisionError.
Proof.
  intros Hx. unfold size_from.
  rewrite py_truediv_ok by reflexivity. cbn [mbind result_bind].
  rewrite py_truediv_zero; [reflexivity|].
  apply py_eq_iff. rewrite num_val_add, !num_val_fl. cbn [num_val].
  change (inject_Z 0) with 0%Q. rewrite Hx. reflexivity.
Qed.













(** * Further properties of the code *)

(** ** The core on strings of hexadecimal digits *)

Lemma digit_value_nonneg (c : ascii) : 0 <= default 0 (pystr.digit_value c).
Proof.
  unfold pystr.digit_value. set (n := Z.of_nat (nat_of_ascii c)).
  destruct ((48 <=? n) && (n <=? 57)) eqn:E1.
  { apply andb_true_iff in E1 as [E1 _]. apply Z.leb_le in E1.
    cbn [default from_option id]. lia. }
  destruct ((97 <=? n) && (n <=? 122)) eqn:E2.
  { apply andb_true_iff in E2 as [E2 _]. apply Z.leb_le in E2.
    cbn [default from_option id]. lia. }
  destruct ((65 <=? n) && (n <=? 90)) eqn:E3; [|reflexivity].
  apply andb_true_iff in E3 as [E3 _]. apply Z.leb_le in E3.
  cbn [default from_option id]. lia.
Qed.

Lemma hex_fold_nonneg (l : list ascii) (acc : Z) :
  0 <= acc ->
  0 <= fold_left (fun acc c => acc * 16 + default 0 (pystr.digit_value c)) l acc.
Proof.
  revert acc. induction l as [|c l IH]; intros acc H; [exact H|].
  cbn [fold_left]. apply IH. pose proof (digit_value_nonneg c). lia.
Qed.

Lemma string_length_pos (s : string) : s <> "" -> (0 <? String.length s)%nat = true.
Proof. destruct s; [done | reflexivity]. Qed.

(** X1.  A string of hexadecimal digits is read in base 16 by the core, also
    when all its digits are decimal. *)
Theorem safe_to_numeric_hex_digits (s : string) :
  s <> "" ->
  pystr.all_hex s = true ->
  safe_to_numeric (VStr s) = NInt (hex_value s) /\ 0 <= hex_value s.
Proof.
  intros Hne Hall. split.
  - cbn [safe_to_numeric]. rewrite Hall, string_length_pos by done.
    rewrite orb_true_r. by rewrite py_int16_all_hex.
  - by apply hex_fold_nonneg.
Qed.

Lemma safe_to_numeric_hex_digits_witness :
  "80" <> "" /\ pystr.all_hex "80" = true
  /\ safe_to_numeric (VStr "80") = NInt (hex_value "80") /\ hex_value "80" = 128.
Proof.
  assert (Hne : "80" <> "") by discriminate.
  split; [exact Hne|]. split; [reflexivity|].
  split; [|reflexivity].
  exact (proj1 (safe_to_numeric_hex_digits "80" Hne eq_refl)).
Defined.

(** ** The decoder followed by the core *)

Lemma safe_to_numeric_of_num (n : num) : safe_to_numeric (of_num n) = n.
Proof. by destruct n. Qed.

Lemma key_in_set_In (key : string) (fields : list string) :
  key_in_set key fields = true <-> In key fields.
Proof.
  unfold key_in_set. rewrite existsb_exists. split.
  - intros (x & Hx & E). apply String.eqb_eq in E. by subst.
  - intros H. exists key. split; [done | apply String.eqb_refl].
Qed.

Lemma convert_string_other (key value : string) :
  key_in_set key numeric_hex_fields = false ->
  key_in_set key numeric_fields = false ->
  convert_string key value = VStr value.
Proof. intros H1 H2. unfold convert_string. by rewrite H1, H2. Qed.


Lemma convert_string_cases (key value : string) :
  convert_string key value = convert_hex_first value
  \/ convert_string key value = convert_decimal_first value
  \/ convert_string key value = VStr value.
Proof.
  unfold convert_string.
  destruct (_ && _); [by left|]. destruct (_ && _); [right; by left | right; by right].
Qed.

Lemma convert_hex_first_coerced (value : string) :
  String.prefix "0x" value = true \/ pystr.all_hex value = true
  \/ pystr.py_int 16 value = None ->
  safe_to_numeric (convert_hex_first value) = safe_to_numeric (VStr value).
Proof.
  intros H. unfold convert_hex_first.
  destruct (pystr.py_int 16 value) as [z|] eqn:E16.
  - cbn [safe_to_numeric]. rewrite E16.
    destruct H as [-> | [Hall | H]]; [reflexivity| |discriminate].
    rewrite Hall. destruct value as [|c r]; [discriminate E16|].
    cbn [String.length Nat.ltb Nat.leb andb]. by rewrite orb_true_r.
  - destruct (parse_decimal value) as [n|] eqn:Edec.
    + rewrite safe_to_numeric_of_num. cbn [safe_to_numeric].
      rewrite E16, Edec. by destruct (_ || _).
    + reflexivity.
Qed.

Lemma convert_string_coerced (key value : string) :
  key_in_set key numeric_fields = false ->
  String.prefix "0x" value = true \/ pystr.all_hex value = true
  \/ pystr.py_int 16 value = None ->
  safe_to_numeric (convert_string key value) = safe_to_numeric (VStr value).
Proof.
  intros Hdec H. unfold convert_string. rewrite Hdec. cbn [andb].
  destruct (_ && _); [by apply convert_hex_first_coerced | reflexivity].
Qed.

Lemma hex_first_not_decimal_first (key : string) :
  In key numeric_hex_fields -> key_in_set key numeric_fields = false.
Proof.
  intros Hk. simpl in Hk. repeat (destruct Hk as [<- | Hk]; [reflexivity|]). done.
Qed.

(** X2.  On every field but the four decimal-first ones, decoding a string that
    is [0x]-prefixed, or made of hexadecimal digits, or not an integer in
    base 16, does not change what the core reads from it. *)
Theorem decoder_core_agreement (key value : string) :
  ~ In key numeric_fields ->
  String.prefix "0x" value = true \/ pystr.all_hex value = true
  \/ pystr.py_int 16 value = None ->
  safe_to_numeric (convert_string key value) = safe_to_numeric (VStr value).
Proof.
  intros Hk H. apply convert_string_coerced; [|exact H].
  destruct (key_in_set key numeric_fields) eqn:E; [|reflexivity].
  by apply key_in_set_In in E.
Qed.

Lemma decoder_core_agreement_witness :
  ~ In "AmountCurrencyA" numeric_fields
  /\ String.prefix "0x" "0x1f4" = true
  /\ safe_to_numeric (convert_string "AmountCurrencyA" "0x1f4") = NInt 500
  /\ safe_to_numeric (VStr "0x1f4") = NInt 500.
Proof.
  assert (Hk : ~ In "AmountCurrencyA" numeric_fields).
  { simpl. intros H. repeat (destruct H as [H | H]; [discriminate H|]). exact H. }
  split; [exact Hk|]. split; [reflexivity|].
  pose proof (decoder_core_agreement "AmountCurrencyA" "0x1f4" Hk (or_introl eq_refl)) as H.
  split; [rewrite H|]; reflexivity.
Defined.

(** X3.  What the decoder leaves as a string in a numeric field is what neither
    attempt could read, and the core reads it as 0. *)
Theorem decoder_leaves_unreadable (key value rest : string) :
  In key numeric_hex_fields \/ In key numeric_fields ->
  value <> "" ->
  convert_string key value = VStr rest ->
  rest = value
  /\ pystr.py_int 16 value = None /\ parse_decimal value = None
  /\ safe_to_numeric (VStr rest) = NInt 0.
Proof.
  intros Hk Hv H.
  assert (E : convert_hex_first value = VStr rest \/ convert_decimal_first value = VStr rest).
  { destruct Hk as [Hk | Hk].
    - left. by rewrite <- (convert_string_hex_first key).
    - right. by rewrite <- (convert_string_decimal_first key). }
  unfold convert_hex_first, convert_decimal_first in E.
  destruct (pystr.py_int 16 value) as [z|] eqn:E16;
    destruct (parse_decimal value) as [[n|q]|] eqn:Edec;
    cbn [of_num] in E; destruct E as [E | E]; try discriminate E.
  all: injection E as <-; repeat split; by apply safe_to_numeric_unparsed.
Qed.

Lemma decoder_leaves_unreadable_witness :
  (In "MaxAmountIn" numeric_hex_fields \/ In "MaxAmountIn" numeric_fields)
  /\ "1.2.3" <> ""
  /\ convert_string "MaxAmountIn" "1.2.3" = VStr "1.2.3"
  /\ safe_to_numeric (VStr "1.2.3") = NInt 0.
Proof.
  assert (Hk : In "MaxAmountIn" numeric_hex_fields \/ In "MaxAmountIn" numeric_fields)
    by (left; simpl; tauto).
  assert (Hv : "1.2.3" <> "") by discriminate.
  split; [exact Hk|]. split; [exact Hv|]. split; [reflexivity|].
  exact (proj2 (proj2 (proj2
    (decoder_leaves_unreadable "MaxAmountIn" "1.2.3" "1.2.3" Hk Hv eq_refl)))).
Defined.

(** ** [convert_hex_to_int] on nested values *)

(** Induction on a value and the values inside it. *)
Lemma pyval_nested_ind (P : pyval -> Prop) :
  P VNone ->
  (forall z, P (VInt z)) ->
  (forall q, P (VFloat q)) ->
  (forall s, P (VStr s)) ->
  (forall l, Forall P l -> P (VList l)) ->
  (forall d, Forall (fun kv => P (snd kv)) d -> P (VDict d)) ->
  forall v, P v.
Proof.
  intros HNone HInt HFloat HStr HList HDict.
  fix IH 1. intros [| z | q | s | l | d]; [done..| |].
  - apply HList. induction l as [|x l IHl]; constructor; [apply IH | exact IHl].
  - apply HDict. induction d as [|[k x] d IHd]; constructor; [apply IH | exact IHd].
Qed.

Lemma convert_hex_to_int_dict (d : pydict) :
  convert_hex_to_int (VDict d)
  = VDict (map (fun kv => (fst kv, convert_entry (fst kv) (snd kv))) d).
Proof.
  cbn [convert_hex_to_int]. f_equal. apply map_ext.
  intros [k v]. by destruct v.
Qed.

Lemma convert_hex_to_int_list (l : list pyval) :
  convert_hex_to_int (VList l) = VList (map convert_hex_to_int l).
Proof. reflexivity. Qed.

Lemma convert_hex_first_again (key value rest : string) :
  convert_hex_first value = VStr rest -> convert_string key rest = VStr rest.
Proof.
  unfold convert_hex_first. intros H.
  destruct (pystr.py_int 16 value) as [z|] eqn:E16; [discriminate H|].
  destruct (parse_decimal value) as [[n|q]|] eqn:Edec; try discriminate H.
  injection H as <-. by apply convert_string_unparsed.
Qed.

Lemma convert_decimal_first_again (key value rest : string) :
  convert_decimal_first value = VStr rest -> convert_string key rest = VStr rest.
Proof.
  unfold convert_decimal_first. intros H.
  destruct (parse_decimal value) as [[n|q]|] eqn:Edec; try discriminate H.
  destruct (pystr.py_int 16 value) as [z|] eqn:E16; [discriminate H|].
  injection H as <-. by apply convert_string_unparsed.
Qed.

(** A string the decoder has produced is one it leaves as it is. *)
Lemma convert_string_again (key value : string) :
  convert_entry key (convert_string key value) = convert_string key value.
Proof.
  destruct (convert_string key value) as [| z | q | rest | l | d] eqn:E; try reflexivity.
  - cbn [convert_entry].
    destruct (convert_string_cases key value) as [H | [H | H]]; rewrite E in H.
    + by apply (convert_hex_first_again key value).
    + by apply (convert_decimal_first_again key value).
    + injection H as ->. exact E.
  - exfalso. destruct (convert_string_cases key value) as [H | [H | H]];
      rewrite E in H; [| |discriminate H].
    + unfold convert_hex_first in H.
      destruct (pystr.py_int 16 value); [discriminate H|].
      by destruct (parse_decimal value) as [[n|q]|].
    + unfold convert_decimal_first in H.
      destruct (parse_decimal value) as [[n|q]|]; try discriminate H.
      by destruct (pystr.py_int 16 value).
  - exfalso. destruct (convert_string_cases key value) as [H | [H | H]];
      rewrite E in H; [| |discriminate H].
    + unfold convert_hex_first in H.
      destruct (pystr.py_int 16 value); [discriminate H|].
      by destruct (parse_decimal value) as [[n|q]|].
    + unfold convert_decimal_first in H.
      destruct (parse_decimal value) as [[n|q]|]; try discriminate H.
      by destruct (pystr.py_int 16 value).
Qed.

(** X4.  Decoding a decoded message changes nothing. *)
Theorem convert_hex_to_int_idempotent (data : pyval) :
  convert_hex_to_int (convert_hex_to_int data) = convert_hex_to_int data.
Proof.
  induction data as [| z | q | s | l IH | d IH] using pyval_nested_ind; try reflexivity.
  - rewrite !convert_hex_to_int_list. f_equal. rewrite map_map.
    apply map_ext_Forall. exact IH.
  - rewrite !convert_hex_to_int_dict. f_equal. rewrite map_map.
    apply map_ext_Forall. eapply Forall_impl; [exact IH|].
    intros [k v] Hv. cbn [fst snd] in *. f_equal.
    destruct v as [| z | q | s | l | dd]; try reflexivity.
    + apply convert_string_again.
    + exact Hv.
    + exact Hv.
Qed.

Lemma dict_lookup_convert (d : pydict) (k : string) :
  dict_lookup (map (fun kv => (fst kv, convert_entry (fst kv) (snd kv))) d) k
  = convert_entry k <$> dict_lookup d k.
Proof.
  induction d as [|[k' v] d IH]; [reflexivity|].
  cbn [map dict_lookup fst snd].
  destruct (String.eqb_spec k' k) as [-> | Hne]; [reflexivity | exact IH].
Qed.


Lemma convert_entry_scalar (key : string) (v : pyval) :
  is_scalar v = true ->
  ~ In key numeric_hex_fields -> ~ In key numeric_fields ->
  convert_entry key v = v.
Proof.
  intros Hs H1 H2. destruct v; try done. cbn [convert_entry].
  apply convert_string_other.
  - destruct (key_in_set key numeric_hex_fields) eqn:E; [|reflexivity].
    by apply key_in_set_In in E.
  - destruct (key_in_set key numeric_fields) eqn:E; [|reflexivity].
    by apply key_in_set_In in E.
Qed.


(** X5.  The decoder keeps the keys of a dict, in their order, and decodes each
    entry on its own; a string under a key that is not one of the fifteen
    numeric fields is kept as it is. *)
Theorem convert_hex_to_int_entries (d : pydict) :
  exists d',
    convert_hex_to_int (VDict d) = VDict d'
    /\ d'.*1 = d.*1
    /\ (forall k, dict_lookup d' k = convert_entry k <$> dict_lookup d k)
    /\ (forall k s, ~ In k numeric_hex_fields -> ~ In k numeric_fields ->
          dict_lookup d k = Some (VStr s) -> dict_lookup d' k = Some (VStr s)).
Proof.
  exists (map (fun kv => (fst kv, convert_entry (fst kv) (snd kv))) d).
  split; [apply convert_hex_to_int_dict|]. split; [|split].
  - induction d as [|[k v] d IH]; [reflexivity|]. cbn. by rewrite IH.
  - apply dict_lookup_convert.
  - intros k s H1 H2 Hk. rewrite dict_lookup_convert, Hk.
    cbn [fmap option_fmap option_map].
    by rewrite (convert_entry_scalar k (VStr s)).
Qed.

(** *** The decoder and the views of an event *)









(** ** [convert_bytes], the decoder and the core on a byte string *)

Lemma hex_digit_value (n : N) :
  (n < 16)%N ->
  pystr.digit_value (hex_digit n) = Some (Z.of_N n)
  /\ pystr.is_hex_char (hex_digit n) = true.
Proof.
  intros H.
  assert (E : exists k, (k < 16)%nat /\ n = N.of_nat k) by (exists (N.to_nat n); lia).
  destruct E as (k & Hk & ->). clear H.
  do 16 (destruct k as [|k]; [split; reflexivity|]).
  lia.
Qed.

Lemma byte_nibbles (b : Byte.byte) :
  let n := Byte.to_N b in
  (n / 16 < 16)%N /\ (n mod 16 < 16)%N /\ (n = n / 16 * 16 + n mod 16)%N.
Proof.
  cbn zeta. pose proof (Byte.to_N_bounded b) as Hb.
  split; [|split].
  - apply N.Div0.div_lt_upper_bound. lia.
  - by apply N.mod_lt.
  - rewrite (N.div_mod (Byte.to_N b) 16) at 1 by done. lia.
Qed.

Lemma hex_of_byte_digits (b : Byte.byte) :
  forallb pystr.is_hex_char (hex_of_byte b) = true.
Proof.
  destruct (byte_nibbles b) as (Hhi & Hlo & _). unfold hex_of_byte.
  cbn [forallb].
  rewrite (proj2 (hex_digit_value _ Hhi)), (proj2 (hex_digit_value _ Hlo)).
  reflexivity.
Qed.

Lemma hex_of_byte_value (b : Byte.byte) (acc : Z) :
  fold_left (fun acc c => acc * 16 + default 0 (pystr.digit_value c)) (hex_of_byte b) acc
  = acc * 256 + Z.of_N (Byte.to_N b).
Proof.
  destruct (byte_nibbles b) as (Hhi & Hlo & Hsum). unfold hex_of_byte.
  cbn [fold_left].
  rewrite (proj1 (hex_digit_value _ Hhi)), (proj1 (hex_digit_value _ Hlo)).
  cbn [default from_option id]. lia.
Qed.

Lemma bytes_hex_digits (value : list Byte.byte) :
  forallb pystr.is_hex_char (flat_map hex_of_byte value) = true.
Proof.
  induction value as [|b value IH]; [reflexivity|].
  cbn [flat_map]. rewrite forallb_app, IH. by rewrite hex_of_byte_digits.
Qed.

Lemma bytes_hex_value (value : list Byte.byte) (acc : Z) :
  fold_left (fun acc c => acc * 16 + default 0 (pystr.digit_value c))
    (flat_map hex_of_byte value) acc
  = fold_left (fun acc b => acc * 256 + Z.of_N (Byte.to_N b)) value acc.
Proof.
  revert acc. induction value as [|b value IH]; intros acc; [reflexivity|].
  cbn [flat_map fold_left]. by rewrite fold_left_app, hex_of_byte_value, IH.
Qed.

(** [int(s, 16)] on [0x] followed by hexadecimal digits. *)
Lemma py_int16_prefixed (l : list ascii) :
  l <> [] -> forallb pystr.is_hex_char l = true ->
  pystr.py_int 16 (String "0" (String "x" (string_of_list_ascii l)))
  = Some (fold_left (fun acc c => acc * 16 + default 0 (pystr.digit_value c)) l 0).
Proof.
  intros Hne Hall. unfold pystr.py_int.
  cbn [list_ascii_of_string]. rewrite list_ascii_of_string_of_list_ascii.
  assert (Hstrip : pystr.strip ("0"%char :: "x"%char :: l) = "0"%char :: "x"%char :: l).
  { unfold pystr.strip. cbn [pystr.lstrip].
    change (pystr.is_space "0") with false. cbn iota.
    cbn [rev]. rewrite <- !app_assoc. cbn [app].
    assert (Hrev : forallb pystr.is_hex_char (rev l) = true).
    { rewrite forallb_forall in *. intros x Hx. apply Hall. by apply in_rev. }
    destruct (rev l) as [|c r] eqn:E.
    { exfalso. apply Hne. rewrite <- (rev_involutive l), E. reflexivity. }
    cbn [forallb] in Hrev. apply andb_true_iff in Hrev as [Hc _].
    destruct (hex_char_plain c Hc) as [Hsp _].
    cbn [app pystr.lstrip]. rewrite Hsp.
    change (c :: r ++ ["x"%char; "0"%char]) with ((c :: r) ++ ["x"%char; "0"%char]).
    rewrite <- E, rev_app_distr, rev_involutive. reflexivity. }
  rewrite Hstrip. cbn [pystr.split_sign Z.eqb Pos.eqb].
  destruct l as [|c l]; [done|].
  assert (Hc : pystr.is_hex_char c = true)
    by (cbn [forallb] in Hall; by apply andb_true_iff in Hall as [? _]).
  destruct (hex_char_plain c Hc) as (_ & Hus & _).
  assert (Hpre : pystr.skip_hex_prefix ("0"%char :: "x"%char :: c :: l) = c :: l).
  { unfold pystr.skip_hex_prefix. change (Ascii.eqb "x" "x") with true. cbn [orb].
    destruct c as [[|] [|] [|] [|] [|] [|] [|] [|]]; try reflexivity; discriminate Hus. }
  rewrite Hpre. unfold pystr.parse_digits. rewrite Hus.
  by rewrite digits_loop_hex.
Qed.

Lemma flat_map_hex_nil (value : list Byte.byte) :
  value <> [] -> flat_map hex_of_byte value <> [].
Proof. by destruct value. Qed.

Lemma be_value_nonneg (value : list Byte.byte) : 0 <= be_value value.
Proof.
  unfold be_value.
  assert (H : forall acc, 0 <= acc ->
            0 <= fold_left (fun acc b => acc * 256 + Z.of_N (Byte.to_N b)) value acc).
  { induction value as [|b value IH]; intros acc Ha; [exact Ha|].
    cbn [fold_left]. apply IH. lia. }
  by apply H.
Qed.

Section convert_bytes_facts.

Variable b58encode : list Byte.byte -> string.

Lemma convert_bytes_hex (value : list Byte.byte) (encoding : string) :
  encoding <> "base58" ->
  convert_bytes b58encode value encoding = String "0" (String "x" (bytes_hex value)).
Proof.
  intros H. unfold convert_bytes. apply String.eqb_neq in H. by rewrite H.
Qed.

Lemma py_int16_convert_bytes (value : list Byte.byte) (encoding : string) :
  encoding <> "base58" -> value <> [] ->
  pystr.py_int 16 (convert_bytes b58encode value encoding) = Some (be_value value).
Proof.
  intros He Hv. rewrite convert_bytes_hex by done. unfold bytes_hex.
  rewrite py_int16_prefixed by (by apply flat_map_hex_nil || apply bytes_hex_digits).
  by rewrite bytes_hex_value.
Qed.

(** X7.  A byte string written in the hexadecimal encoding, which is the one
    [parse_message] asks for, is read back as the unsigned big-endian integer
    of the bytes: by the decoder under a hex-first key, and by the core from
    the string itself.  The empty byte string gives ["0x"], which the decoder
    leaves as it is and the core reads as 0. *)
Theorem convert_bytes_round_trip (value : list Byte.byte) (encoding key : string) :
  encoding <> "base58" ->
  In key numeric_hex_fields ->
  safe_to_numeric (convert_string key (convert_bytes b58encode value encoding))
  = NInt (be_value value)
  /\ safe_to_numeric (VStr (convert_bytes b58encode value encoding)) = NInt (be_value value)
  /\ (value <> [] ->
      convert_hex_to_int (VDict [(key, VStr (convert_bytes b58encode value encoding))])
      = VDict [(key, VInt (be_value value))])
  /\ 0 <= be_value value.
Proof.
  intros He Hk.
  assert (Hcore : safe_to_numeric (VStr (convert_bytes b58encode value encoding))
                  = NInt (be_value value)).
  { destruct value as [|b value].
    - by rewrite convert_bytes_hex.
    - cbn [safe_to_numeric]. rewrite py_int16_convert_bytes by done.
      by rewrite convert_bytes_hex. }
  assert (Hne : convert_bytes b58encode value encoding <> "")
    by (by rewrite convert_bytes_hex).
  split; [|split; [exact Hcore|split]].
  - rewrite <- Hcore. apply convert_string_coerced;
      [by apply hex_first_not_decimal_first|].
    left. rewrite convert_bytes_hex by done. simpl. by destruct (bytes_hex value).
  - intros Hv. rewrite convert_hex_to_int_entry, convert_string_hex_first by done.
    unfold convert_hex_first. by rewrite py_int16_convert_bytes.
  - apply be_value_nonneg.
Qed.

End convert_bytes_facts.

Lemma convert_bytes_round_trip_witness :
  "hex" <> "base58"
  /\ In "AmountCurrencyA" numeric_hex_fields
  /\ safe_to_numeric
       (convert_string "AmountCurrencyA"
          (convert_bytes (fun _ => "") [Byte.x01; Byte.xf4] "hex"))
     = NInt 500.
Proof.
  assert (He : "hex" <> "base58") by discriminate.
  assert (Hk : In "AmountCurrencyA" numeric_hex_fields) by (simpl; tauto).
  split; [exact He|]. split; [exact Hk|].
  exact (proj1 (convert_bytes_round_trip (fun _ => "") [Byte.x01; Byte.xf4]
                  "hex" "AmountCurrencyA" He Hk)).
Defined.

(** ** The history kept by [is_isolated_shock] *)

Lemma length_deque {A : Type} (n : nat) (l : list A) : (length (deque n l) <= n)%nat.
Proof. unfold deque. rewrite length_drop. lia. Qed.

Lemma deque_deque {A : Type} (n m : nat) (l : list A) :
  (n <= m)%nat -> deque n (deque m l) = deque n l.
Proof.
  intros H. unfold deque. rewrite length_drop, drop_drop. f_equal. lia.
Qed.

Lemma In_deque {A : Type} (n : nat) (l : list A) (x : A) : In x (deque n l) -> In x l.
Proof.
  unfold deque. intros H. rewrite <- (take_drop (length l - n) l).
  apply in_or_app. by right.
Qed.

Lemma filter_none {A : Type} (f : A -> bool) (l : list A) :
  (forall x, In x l -> f x = false) -> List.filter f l = [].
Proof.
  induction l as [|x l IH]; intros H; [reflexivity|].
  cbn [List.filter]. rewrite (H x) by (by left). apply IH.
  intros y Hy. apply H. by right.
Qed.

Lemma filter_length_le {A : Type} (f : A -> bool) (l : list A) :
  (length (List.filter f l) <= length l)%nat.
Proof.
  induction l as [|x l IH]; [done|]. cbn [List.filter].
  destruct (f x); cbn [length]; lia.
Qed.

Lemma retained_after_call (key : string) (d : direction) (t : num)
    (h : gmap string (list flow_record)) :
  retained (snd (is_isolated_shock key d t h)) key
  = deque 9 (List.filter (in_window t) (retained h key)) ++ [flow_entry d t].
Proof. rewrite retained_after. by rewrite deque_deque by lia. Qed.

(** X8.  After a call the history of the pool holds the record of the call
    last, and before it the last nine of the records that were retained and
    lie in the window of the call: never more than ten records, none of them
    older than the window. *)
Theorem flow_history_after_call (key : string) (d : direction) (t : num)
    (h : gmap string (list flow_record)) :
  let kept := retained (snd (is_isolated_shock key d t h)) key in
  kept = deque 9 (List.filter (in_window t) (retained h key)) ++ [flow_entry d t]
  /\ (1 <= length kept <= 10)%nat
  /\ (forall e, In e (removelast kept) -> In e (retained h key) /\ in_window t e = true).
Proof.
  cbn zeta. rewrite retained_after_call. split; [reflexivity|]. split.
  - rewrite length_app. cbn [length].
    pose proof (length_deque 9 (List.filter (in_window t) (retained h key))). lia.
  - intros e. rewrite removelast_last. intros He%In_deque.
    by apply filter_In in He.
Qed.

Lemma count_zero (key : string) (d : direction) (t : num)
    (h : gmap string (list flow_record)) :
  (forall e, In e (retained h key) -> in_window t e = true -> fr_direction e <> d) ->
  same_direction_count h key d t = 0%nat.
Proof.
  intros H. unfold same_direction_count. rewrite filter_none; [reflexivity|].
  intros e He. destruct (in_window t e) eqn:Ew; [|reflexivity].
  cbn [andb]. apply bool_decide_eq_false. by apply H.
Qed.

(** X9.  Records in the other direction, and records outside the window, do not
    count: without a record in the window in the direction of the call the
    answer is [True]; and when no retained record lies in the window the
    history of the pool restarts from the record of the call. *)
Theorem quiet_pool_is_isolated (key : string) (d : direction) (t : num)
    (h : gmap string (list flow_record)) :
  (forall e, In e (retained h key) -> in_window t e = true -> fr_direction e <> d) ->
  fst (is_isolated_shock key d t h) = true
  /\ ((forall e, In e (retained h key) -> in_window t e = false) ->
      retained (snd (is_isolated_shock key d t h)) key = [flow_entry d t]).
Proof.
  intros H. split.
  - rewrite is_isolated_shock_verdict, count_zero by done.
    apply bool_decide_eq_true. unfold config.MAX_SAME_DIRECTION_EVENTS. lia.
  - intros Hold. rewrite retained_after_call. by rewrite filter_none.
Qed.

Lemma quiet_pool_is_isolated_witness :
  let h : gmap string (list flow_record) :=
    {[ "P" := [flow_entry AtoB (NInt 0); flow_entry AtoB (NInt 5)] ]} in
  (forall e, In e (retained h "P") -> in_window (NInt 100) e = true -> fr_direction e <> AtoB)
  /\ fst (is_isolated_shock "P" AtoB (NInt 100) h) = true
  /\ retained (snd (is_isolated_shock "P" AtoB (NInt 100) h)) "P"
     = [flow_entry AtoB (NInt 100)].
Proof.
  cbn zeta.
  set (h := {[ "P" := [flow_entry AtoB (NInt 0); flow_entry AtoB (NInt 5)] ]}
            : gmap string (list flow_record)).
  assert (Hold : forall e, In e (retained h "P") -> in_window (NInt 100) e = false).
  { intros e [<- | [<- | []]]; reflexivity. }
  assert (Hq : forall e, In e (retained h "P") -> in_window (NInt 100) e = true ->
                         fr_direction e <> AtoB).
  { intros e He Hw. rewrite (Hold e He) in Hw. discriminate Hw. }
  split; [exact Hq|].
  destruct (quiet_pool_is_isolated "P" AtoB (NInt 100) h Hq) as [H1 H2].
  split; [exact H1 | exact (H2 Hold)].
Defined.

(** X10.  With at most one record retained the answer is [True] whatever the
    direction and the time: the first two events of a pool are isolated. *)
Theorem first_two_events_isolated (key : string) (d1 d2 : direction) (t1 t2 : num)
    (h : gmap string (list flow_record)) :
  h !! key = None ->
  fst (is_isolated_shock key d1 t1 h) = true
  /\ fst (is_isolated_shock key d2 t2 (snd (is_isolated_shock key d1 t1 h))) = true.
Proof.
  intros Hnone.
  assert (Hle : forall h' d t, (length (retained h' key) <= 1)%nat ->
                               fst (is_isolated_shock key d t h') = true).
  { intros h' d t Hlen. rewrite is_isolated_shock_verdict.
    apply bool_decide_eq_true. unfold same_direction_count, config.MAX_SAME_DIRECTION_EVENTS.
    etransitivity; [apply filter_length_le | exact Hlen]. }
  split.
  - apply Hle. unfold retained. rewrite Hnone. cbn. lia.
  - apply Hle. rewrite retained_after_call. unfold retained at 1. rewrite Hnone.
    cbn. lia.
Qed.

Lemma first_two_events_isolated_witness :
  (∅ : gmap string (list flow_record)) !! "P" = None
  /\ fst (is_isolated_shock "P" AtoB (NInt 0) ∅) = true
  /\ fst (is_isolated_shock "P" AtoB (NInt 1)
            (snd (is_isolated_shock "P" AtoB (NInt 0) ∅))) = true.
Proof.
  split; [reflexivity|].
  exact (first_two_events_isolated "P" AtoB AtoB (NInt 0) (NInt 1) ∅ eq_refl).
Defined.

(** ** Bounds on the position size *)









(** ** [apply_decimals] *)




(** ** What [calculate_price_impact] returns *)







(** ** [process_pool_event] on the events it can read *)

Lemma process_pool_event_skips (now : Q) (ev : pyval) (st : state) :
  is_dict ev = true ->
  is_dict (pool_of ev) = true ->
  truthy (pool_id_of ev) = false \/ calculate_price_impact ev = Ok None ->
  process_pool_event now ev st = Ok (None, st).
Proof.
  intros Hev Hpool H. unfold process_pool_event.
  rewrite (py_get_field ev "Pool") by done. cbn [mbind result_bind].
  fold (pool_of ev). rewrite (py_get_field (pool_of ev)) by done.
  cbn [mbind result_bind]. fold (pool_id_of ev).
  destruct (truthy (pool_id_of ev)); cbn [negb]; [|reflexivity].
  destruct H as [H | ->]; [discriminate H | reflexivity].
Qed.

(** X15.  An event without a pool id, and an event in which no tier qualifies,
    leave both dictionaries as they are; and a call that returns with a
    changed state was made on an event with a pool id in which a tier
    qualifies.  So only qualifying events are recorded in the flow history. *)
Theorem process_pool_event_leaves_no_trace (now : Q) (ev : pyval) (st : state) :
  is_dict ev = true ->
  is_dict (pool_of ev) = true ->
  (truthy (pool_id_of ev) = false \/ calculate_price_impact ev = Ok None ->
   process_pool_event now ev st = Ok (None, st))
  /\ (forall made st',
        process_pool_event now ev st = Ok (made, st') -> st' <> st ->
        truthy (pool_id_of ev) = true
        /\ exists impact, calculate_price_impact ev = Ok (Some impact)).
Proof.
  intros Hev Hpool. split; [by apply process_pool_event_skips|].
  intros made st' H Hchanged. unfold process_pool_event in H.
  inv_get H. fold (pool_of ev) in H.
  inv_get H. fold (pool_id_of ev) in H.
  destruct (truthy (pool_id_of ev)); cbn [negb] in H;
    [|injection H as <- <-; by destruct Hchanged].
  split; [reflexivity|].
  inv_bind H as found Hfound.
  destruct found as [impact|]; [by exists impact|].
  injection H as <- <-. by destruct Hchanged.
Qed.

Lemma process_pool_event_leaves_no_trace_witness :
  is_dict drained_event = true
  /\ is_dict (pool_of drained_event) = true
  /\ calculate_price_impact drained_event = Ok None
  /\ process_pool_event 7 drained_event holding_P = Ok (None, holding_P).
Proof.
  do 3 (split; [reflexivity|]).
  exact (proj1 (process_pool_event_leaves_no_trace 7 drained_event holding_P eq_refl eq_refl)
           (or_intror eq_refl)).
Defined.










(** *** The loop does not raise on well-formed events *)





(** ** Positions and histories over runs of the loop *)

Lemma handle_event_position (now_m now_s : Q) (ev : pyval) (st : state)
    (made : option signal) (st' : state) (k : string) (p : signal) :
  handle_event now_m now_s ev st = Ok (made, st') ->
  active_positions st !! k = Some p ->
  active_positions st' !! k = Some p
  \/ (status p = pending /\ active_positions st' !! k = Some (set_status entered p)).
Proof.
  unfold handle_event. intros H Hp. inv_bind H as st1 Hmon.
  apply monitor_positions_entries in Hmon as (_ & Hdom & Hent).
  destruct (proj2 (Hdom k)) as [p1 Hp1]; [by eexists|].
  apply process_pool_event_registry in H.
  assert (Hk : active_positions st' !! k = Some p1).
  { destruct made as [s|]; [|by rewrite H].
    destruct H as (key & _ & _ & _ & Hfree & ->).
    rewrite lookup_insert_ne; [done|]. intros ->. congruence. }
  rewrite Hk. destruct (Hent k p p1 Hp Hp1) as [-> | [Hs ->]]; [by left | by right].
Qed.

(** X18.  A position, once stored, is never removed, replaced or resized by the
    loop: at the end of any run it is the position that was stored, except
    that its status may have gone from [pending] to [entered]. *)
Theorem positions_kept_over_runs (events : list (Q * Q * pyval)) (st : state)
    (sigs : list signal) (st' : state) (k : string) (p : signal) :
  handle_events events st = Ok (sigs, st') ->
  active_positions st !! k = Some p ->
  active_positions st' !! k = Some p
  \/ (status p = pending /\ active_positions st' !! k = Some (set_status entered p)).
Proof.
  revert st sigs st' p.
  induction events as [|[[now_m now_s] ev] rest IH]; intros st sigs st' p H Hp.
  - injection H as <- <-. by left.
  - cbn [handle_events] in H. inv_bind H as r1 Hev. destruct r1 as [made st1].
    inv_bind H as r2 Hrest. destruct r2 as [sigs' st2]. injection H as <- <-.
    destruct (handle_event_position _ _ _ _ _ _ k p Hev Hp) as [Hk | [Hs Hk]].
    + by apply (IH st1 sigs' st2).
    + right. split; [done|].
      destruct (IH st1 sigs' st2 _ Hrest Hk) as [H1 | [H1 _]]; [done | discriminate H1].
Qed.

Lemma positions_kept_over_runs_witness :
  handle_events [(8%Q, 8%Q, pool_P_event); (9%Q, 9%Q, drained_event)] holding_P
  = Ok ([], add_position "P" (set_status entered pending_P)
              {| pool_event_history := {[ "P" := [flow_entry AtoB (NInt 7)] ]};
                 active_positions := active_positions holding_P |})
  /\ active_positions holding_P !! "P" = Some pending_P
  /\ status pending_P = pending.
Proof.
  assert (Hrun : handle_events [(8%Q, 8%Q, pool_P_event); (9%Q, 9%Q, drained_event)] holding_P
                 = Ok ([], add_position "P" (set_status entered pending_P)
                             {| pool_event_history := {[ "P" := [flow_entry AtoB (NInt 7)] ]};
                                active_positions := active_positions holding_P |}))
    by (vm_compute; reflexivity).
  split; [exact Hrun|]. split; [reflexivity|].
  destruct (positions_kept_over_runs _ _ _ _ "P" pending_P Hrun eq_refl) as [H | [H _]].
  - reflexivity.
  - exact H.
Defined.

(** X19.  A second call of [monitor_positions] for the same event at the same
    clock reading changes nothing; and once a call has entered a position,
    no later call for that event changes anything, whatever the clock
    reads. *)
Theorem monitor_positions_idempotent (now : Q) (ev : pyval) (st st1 : state) :
  monitor_positions now ev st = Ok st1 ->
  monitor_positions now ev st1 = Ok st1
  /\ (st1 <> st -> forall now', monitor_positions now' ev st1 = Ok st1).
Proof.
  intros H. assert (H0 := H). unfold monitor_positions in H0.
  apply bind_Ok in H0 as (pool & Hpool & H0). apply py_get_Ok in Hpool as [Hev ->].
  fold (pool_of ev) in H0.
  apply bind_Ok in H0 as (pid & Hpid & _). apply py_get_Ok in Hpid as [Hpool _].
  destruct (monitor_positions_effect now ev st st1 H)
    as [-> | (key & p & Hpid & Hp & Ht & Hs & ->)].
  - split; [exact H | by intros []].
  - assert (Hall : forall now',
               monitor_positions now' ev (add_position key (set_status entered p) st)
               = Ok (add_position key (set_status entered p) st)).
    { intros now'. rewrite (monitor_positions_returns now' ev _ key) by done.
      cbn [add_position active_positions]. rewrite lookup_insert_eq.
      destruct (py_lt (NFloat now') _); reflexivity. }
    split; [apply Hall | intros _; apply Hall].
Qed.

Lemma monitor_positions_idempotent_witness :
  monitor_positions 9 pool_P_event holding_P
  = Ok (add_position "P" (set_status entered pending_P) holding_P)
  /\ monitor_positions 9 pool_P_event (add_position "P" (set_status entered pending_P) holding_P)
     = Ok (add_position "P" (set_status entered pending_P) holding_P).
Proof.
  assert (H : monitor_positions 9 pool_P_event holding_P
              = Ok (add_position "P" (set_status entered pending_P) holding_P))
    by (vm_compute; reflexivity).
  split; [exact H|].
  exact (proj1 (monitor_positions_idempotent 9 pool_P_event holding_P _ H)).
Defined.

Lemma should_fade_history (ev : pyval) (i : num) (d : direction) (s : num) (st : state)
    (b : bool) (st' : state) :
  should_fade ev (i, d, s) st = Ok (b, st') ->
  pool_event_history st' = pool_event_history st
  \/ exists key t,
       pool_event_history st' = snd (is_isolated_shock key d t (pool_event_history st)).
Proof.
  unfold should_fade. intros H.
  inv_get H. fold (pool_of ev) in H.
  inv_get H. fold (pool_id_of ev) in H.
  destruct (truthy (pool_id_of ev)); cbn [negb] in H;
    [|injection H as <- <-; by left].
  inv_get H. inv_get H.
  inv_bind H as n Hn. inv_bind H as t Ht. inv_bind H as key Hkey.
  apply as_key_Ok in Hkey as Hpid. rewrite Hpid in H.
  right. exists key, t.
  destruct (is_isolated_shock key d t (pool_event_history st)) as [isolated h].
  destruct isolated; cbn [negb] in H; [|by injection H as <- <-].
  rewrite key_in_str in H. cbn [mbind result_bind active_positions] in H.
  destruct (bool_decide _); by injection H as <- <-.
Qed.

Lemma process_pool_event_history (now : Q) (ev : pyval) (st : state)
    (made : option signal) (st' : state) :
  process_pool_event now ev st = Ok (made, st') ->
  pool_event_history st' = pool_event_history st
  \/ exists key d t,
       pool_event_history st' = snd (is_isolated_shock key d t (pool_event_history st)).
Proof.
  unfold process_pool_event. intros H.
  inv_get H. fold (pool_of ev) in H.
  inv_get H. fold (pool_id_of ev) in H.
  destruct (truthy (pool_id_of ev)); cbn [negb] in H; [|injection H as <- <-; by left].
  inv_bind H as found Hfound.
  destruct found as [[[i d] sz]|]; [|injection H as <- <-; by left].
  inv_bind H as sd Hsd. inv_get H. inv_get H. inv_bind H as shown Hshown.
  inv_bind H as verdict Hfade. destruct verdict as [fade st1].
  apply should_fade_history in Hfade.
  assert (Hh : pool_event_history st' = pool_event_history st1).
  { destruct fade; [|by injection H as <- <-].
    inv_bind H as s Hs. inv_bind H as pd Hpd. inv_bind H as shown' Hshown'.
    inv_bind H as key' Hkey. by injection H as <- <-. }
  rewrite Hh. destruct Hfade as [-> | (key & t & ->)]; [by left|].
  right. by exists key, d, t.
Qed.

Lemma is_isolated_shock_bounded (key : string) (d : direction) (t : num)
    (h : gmap string (list flow_record)) :
  history_bounded h -> history_bounded (snd (is_isolated_shock key d t h)).
Proof.
  intros Hb k l. rewrite is_isolated_shock_history.
  destruct (decide (key = k)) as [<- | Hne].
  - rewrite lookup_insert_eq. intros [= <-]. rewrite length_app. cbn [length].
    pose proof (length_deque 9 (deque 10 (List.filter (in_window t) (retained h key)))).
    lia.
  - rewrite lookup_insert_ne by done. apply Hb.
Qed.

Lemma is_isolated_shock_keeps_pools (key : string) (d : direction) (t : num)
    (h : gmap string (list flow_record)) (k : string) :
  is_Some (h !! k) -> is_Some (snd (is_isolated_shock key d t h) !! k).
Proof.
  intros Hk. rewrite is_isolated_shock_history.
  destruct (decide (key = k)) as [<- | Hne];
    [rewrite lookup_insert_eq; by eexists | by rewrite lookup_insert_ne].
Qed.

Lemma handle_event_history (now_m now_s : Q) (ev : pyval) (st : state)
    (made : option signal) (st' : state) :
  handle_event now_m now_s ev st = Ok (made, st') ->
  pool_event_history st' = pool_event_history st
  \/ exists key d t,
       pool_event_history st' = snd (is_isolated_shock key d t (pool_event_history st)).
Proof.
  unfold handle_event. intros H. inv_bind H as st1 Hmon.
  apply monitor_positions_entries in Hmon as (Hh & _).
  apply process_pool_event_history in H. by rewrite Hh in H.
Qed.

(** X20.  Over any run of the loop the flow history stays bounded: a pool never
    has more than ten records retained, and a pool that has a history keeps
    one.  The run may start from the empty dictionaries. *)
Theorem flow_history_bounded_over_runs (events : list (Q * Q * pyval)) (st : state)
    (sigs : list signal) (st' : state) :
  handle_events events st = Ok (sigs, st') ->
  history_bounded (pool_event_history st) ->
  history_bounded (pool_event_history st')
  /\ (forall k, is_Some (pool_event_history st !! k) ->
                is_Some (pool_event_history st' !! k))
  /\ history_bounded (pool_event_history initial_state).
Proof.
  intros H Hb. split; [|split]; [| |by intros k l].
  - revert st sigs st' H Hb.
    induction events as [|[[now_m now_s] ev] rest IH]; intros st sigs st' H Hb.
    + by injection H as <- <-.
    + cbn [handle_events] in H. inv_bind H as r1 Hev. destruct r1 as [made st1].
      inv_bind H as r2 Hrest. destruct r2 as [sigs' st2]. injection H as <- <-.
      apply (IH st1 sigs' st2 Hrest).
      apply handle_event_history in Hev as [-> | (key & d & t & ->)];
        [exact Hb | by apply is_isolated_shock_bounded].
  - revert st sigs st' H Hb.
    induction events as [|[[now_m now_s] ev] rest IH]; intros st sigs st' H Hb k Hk.
    + by injection H as <- <-.
    + cbn [handle_events] in H. inv_bind H as r1 Hev. destruct r1 as [made st1].
      inv_bind H as r2 Hrest. destruct r2 as [sigs' st2]. injection H as <- <-.
      assert (Hstep := Hev). apply handle_event_history in Hstep.
      apply (IH st1 sigs' st2 Hrest).
      * destruct Hstep as [-> | (key & d & t & ->)];
          [exact Hb | by apply is_isolated_shock_bounded].
      * destruct Hstep as [-> | (key & d & t & ->)];
          [exact Hk | by apply is_isolated_shock_keeps_pools].
Qed.

Lemma flow_history_bounded_over_runs_witness :
  handle_events [(8%Q, 8%Q, pool_P_event); (9%Q, 9%Q, drained_event)] holding_P
  = Ok ([], add_position "P" (set_status entered pending_P)
              {| pool_event_history := {[ "P" := [flow_entry AtoB (NInt 7)] ]};
                 active_positions := active_positions holding_P |})
  /\ history_bounded (pool_event_history holding_P)
  /\ history_bounded {[ "P" := [flow_entry AtoB (NInt 7)] ]}.
Proof.
  assert (Hrun : handle_events [(8%Q, 8%Q, pool_P_event); (9%Q, 9%Q, drained_event)] holding_P
                 = Ok ([], add_position "P" (set_status entered pending_P)
                             {| pool_event_history := {[ "P" := [flow_entry AtoB (NInt 7)] ]};
                                active_positions := active_positions holding_P |}))
    by (vm_compute; reflexivity).
  assert (Hb : history_bounded (pool_event_history holding_P)) by (by intros k l).
  split; [exact Hrun|]. split; [exact Hb|].
  exact (proj1 (flow_history_bounded_over_runs _ _ _ _ Hrun Hb)).
Defined.

Lemma handle_event_keyed (now_m now_s : Q) (ev : pyval) (st : state)
    (made : option signal) (st' : state) :
  handle_event now_m now_s ev st = Ok (made, st') ->
  keyed_by_pool_id (active_positions st) -> keyed_by_pool_id (active_positions st').
Proof.
  unfold handle_event. intros H Hinv. inv_bind H as st1 Hmon.
  apply monitor_positions_entries in Hmon as (_ & Hdom & Hent).
  assert (Hinv1 : keyed_by_pool_id (active_positions st1)).
  { intros k p1 Hp1. destruct (proj1 (Hdom k)) as [p Hp]; [by eexists|].
    destruct (Hent k p p1 Hp Hp1) as [-> | [_ ->]]; exact (Hinv k p Hp). }
  apply process_pool_event_registry in H.
  destruct made as [s|]; [|by rewrite H].
  destruct H as (key & _ & Hs & _ & _ & ->). intros k p.
  destruct (decide (key = k)) as [<- | Hne].
  - rewrite lookup_insert_eq. by intros [= <-].
  - rewrite lookup_insert_ne by done. apply Hinv1.
Qed.

(** X21.  Over any run of the loop the registry stays keyed by pool id: the entry
    under a key is a position of that pool.  The run may start from the empty
    registry. *)
Theorem registry_keyed_over_runs (events : list (Q * Q * pyval)) (st : state)
    (sigs : list signal) (st' : state) :
  handle_events events st = Ok (sigs, st') ->
  keyed_by_pool_id (active_positions st) ->
  keyed_by_pool_id (active_positions st')
  /\ keyed_by_pool_id (active_positions initial_state).
Proof.
  intros H Hinv. split; [|by intros k p].
  revert st sigs st' H Hinv.
  induction events as [|[[now_m now_s] ev] rest IH]; intros st sigs st' H Hinv.
  - by injection H as <- <-.
  - cbn [handle_events] in H. inv_bind H as r1 Hev. destruct r1 as [made st1].
    inv_bind H as r2 Hrest. destruct r2 as [sigs' st2]. injection H as <- <-.
    apply (IH st1 sigs' st2 Hrest). by apply (handle_event_keyed _ _ _ _ _ _ Hev).
Qed.

Lemma registry_keyed_over_runs_witness :
  handle_events [(8%Q, 8%Q, pool_P_event); (9%Q, 9%Q, drained_event)] holding_P
  = Ok ([], add_position "P" (set_status entered pending_P)
              {| pool_event_history := {[ "P" := [flow_entry AtoB (NInt 7)] ]};
                 active_positions := active_positions holding_P |})
  /\ keyed_by_pool_id (active_positions holding_P)
  /\ keyed_by_pool_id
       (active_positions
          (add_position "P" (set_status entered pending_P)
             {| pool_event_history := {[ "P" := [flow_entry AtoB (NInt 7)] ]};
                active_positions := active_positions holding_P |})).
Proof.
  assert (Hrun : handle_events [(8%Q, 8%Q, pool_P_event); (9%Q, 9%Q, drained_event)] holding_P
                 = Ok ([], add_position "P" (set_status entered pending_P)
                             {| pool_event_history := {[ "P" := [flow_entry AtoB (NInt 7)] ]};
                                active_positions := active_positions holding_P |}))
    by (vm_compute; reflexivity).
  assert (Hinv : keyed_by_pool_id (active_positions holding_P)).
  { intros k p. unfold holding_P, add_position. cbn [active_positions initial_state].
    destruct (decide ("P" = k)) as [<- | Hne].
    - rewrite lookup_insert_eq. by intros [= <-].
    - by rewrite lookup_insert_ne. }
  split; [exact Hrun|]. split; [exact Hinv|].
  exact (proj1 (registry_keyed_over_runs _ _ _ _ Hrun Hinv)).
Defined.
